(** * Blackjack: a shallow embedding of [blackjack.py] and its properties.

    Python integers are modelled as [Z], Python lists as [list] (the last
    element of the list is the top of a stack, as for [list.append] and
    [list.pop]), strings as [string].  The methods of the [Blackjack] object
    that mutate [self] are functions in a state-and-exception monad over a
    record holding the attributes of [self]; a raised exception keeps the
    mutations made before it, as in Python. *)

From Stdlib Require Import ZArith Lia Ascii.
From stdpp Require Import base list strings pretty.

Local Open Scope Z_scope.

(** ** Python helpers *)

(** [range(n)]: the integers [0], ..., [n-1]; empty when [n <= 0]. *)
Definition range (n : Z) : list Z := map Z.of_nat (seq 0 (Z.to_nat n)).

(** [range(lo, hi)]. *)
Definition range2 (lo hi : Z) : list Z := map (fun i => lo + i) (range (hi - lo)).

(** The sum of a list of integers, [sum(...)] and [ndarray.sum()]. *)
Definition sum_Z (l : list Z) : Z := foldr Z.add 0 l.

(** [np.clip(x, a_min, a_max)] on one entry: [minimum(maximum(x, a_min), a_max)]. *)
Definition clip (a_min a_max x : Z) : Z := Z.min (Z.max x a_min) a_max.

(** ** Cards *)

Record Card : Type := mkCard { suit : string; number : Z }.

Global Instance Card_eq_dec : EqDecision Card.
Proof. solve_decision. Defined.

(** ** The constants set by [Blackjack.__init__] *)

Definition _SUITS : list string := ["Spades"; "Hearts"; "Clubs"; "Diamonds"]%string.
Definition _ACE_LOW : Z := 1.
Definition _ACE_HIGH : Z := 11.
Definition _LOWEST_CARD : Z := 1.
Definition _HIGHEST_CARD : Z := 13.
Definition _WINNING_SUM : Z := 21.
Definition _MAX_ROYALTY : Z := 10.

(** ** The hand evaluator *)

(** One iteration of the loop of [calculate_optimal_ace_sum]. *)
Definition ace_step (current_sum target_sum ace_sum card_idx : Z) : Z :=
  if current_sum + ace_sum + _ACE_HIGH <=? target_sum - card_idx
  then ace_sum + _ACE_HIGH
  else ace_sum + _ACE_LOW.

(** [calculate_optimal_ace_sum]: [ace_sum] starts at 0 and is updated for
    [card_idx] in [range(number_of_ace_cards)]. *)
Definition calculate_optimal_ace_sum
    (number_of_ace_cards current_sum target_sum : Z) : Z :=
  fold_left (ace_step current_sum target_sum) (range number_of_ace_cards) 0.

(** [_calculate_no_aces]: the entries clipped to [1 .. _MAX_ROYALTY], summed.
    (The numpy sum of these small integers is exact, so it is an integer
    here.) *)
Definition _calculate_no_aces (stack : list Z) : Z :=
  sum_Z (map (clip 1 _MAX_ROYALTY) stack).

(** The two comprehensions of [_calculate_stack_sum]. *)
Definition ace_cards (stack : list Card) : list Card :=
  filter (fun card => number card = 1) stack.

Definition non_ace_numbers (stack : list Card) : list Z :=
  map number (filter (fun card => number card <> 1) stack).

Definition _calculate_stack_sum (stack : list Card) : Z :=
  let num_cards_ace := Z.of_nat (length (ace_cards stack)) in
  let sum_of_cards_without_ace := _calculate_no_aces (non_ace_numbers stack) in
  let ace_sum :=
    calculate_optimal_ace_sum num_cards_ace sum_of_cards_without_ace _WINNING_SUM in
  sum_of_cards_without_ace + ace_sum.

(** The spec calls the evaluator [evaluate]. *)
Definition evaluate (hand : list Card) : Z := _calculate_stack_sum hand.

(** ** The outcome resolver *)

(** [_compute_winner]; [a > b > c] is Python's chained comparison,
    [a > b and b > c]. *)
Definition _compute_winner (dealer_sum player_sum : Z) : string :=
  if (dealer_sum =? _WINNING_SUM) && (player_sum =? _WINNING_SUM) then "NONE"
  else if dealer_sum =? _WINNING_SUM then "DEALER"
  else if (_WINNING_SUM >? dealer_sum) && (dealer_sum >? player_sum) then "DEALER"
  else if player_sum >? _WINNING_SUM then "DEALER"
  else if player_sum =? _WINNING_SUM then "PLAYER"
  else if (dealer_sum <? player_sum) && (player_sum <? _WINNING_SUM) then "PLAYER"
  else "NONE".

(** ** The game object *)

(** What [dealer_draw] prints: which of its two lines, and the value
    formatted into it (the text of the line is not modelled). *)
Inductive output : Type :=
  | DEALER_HIT (drawn_card : Card)
  | DEALER_STAY (current_sum : Z).

(** The mutable attributes of [self], and the lines printed so far. *)
Record Blackjack : Type := mkBlackjack {
  _num_decks : Z;
  _num_players : Z;
  _card_stack : list Card;
  _dealer_stack : list Card;
  _player_stacks : list (list Card);
  _player_dones : list bool;
  _current_turn : Z;
  stdout : list output
}.

Definition set_card_stack (v : list Card) (self : Blackjack) : Blackjack :=
  mkBlackjack (_num_decks self) (_num_players self) v (_dealer_stack self)
    (_player_stacks self) (_player_dones self) (_current_turn self) (stdout self).

Definition set_dealer_stack (v : list Card) (self : Blackjack) : Blackjack :=
  mkBlackjack (_num_decks self) (_num_players self) (_card_stack self) v
    (_player_stacks self) (_player_dones self) (_current_turn self) (stdout self).

Definition set_player_stacks (v : list (list Card)) (self : Blackjack) : Blackjack :=
  mkBlackjack (_num_decks self) (_num_players self) (_card_stack self)
    (_dealer_stack self) v (_player_dones self) (_current_turn self) (stdout self).

Definition set_stdout (v : list output) (self : Blackjack) : Blackjack :=
  mkBlackjack (_num_decks self) (_num_players self) (_card_stack self)
    (_dealer_stack self) (_player_stacks self) (_player_dones self)
    (_current_turn self) v.

(** *** Exceptions and the monad of methods *)

(** The only exception the modelled methods can raise: [list.pop] on an empty
    list and list indexing out of range both raise [IndexError]. *)
Inductive exn : Type := IndexError.

Inductive result (A : Type) : Type :=
  | Ok (a : A)
  | Raise (e : exn).
Arguments Ok {A} a.
Arguments Raise {A} e.

(** A method takes the object and gives its result, or the exception it
    raised, and the object as the call left it. *)
Definition M (A : Type) : Type := Blackjack -> result A * Blackjack.

Definition ret {A} (a : A) : M A := fun self => (Ok a, self).

Definition raise {A} (e : exn) : M A := fun self => (Raise e, self).

Definition bind {A B} (m : M A) (k : A -> M B) : M B :=
  fun self =>
    match m self with
    | (Ok a, self') => k a self'
    | (Raise e, self') => (Raise e, self')
    end.

Notation "x <- m ;; k" := (bind m (fun x => k))
  (at level 100, m at next level, right associativity).

Definition get : M Blackjack := fun self => (Ok self, self).

Definition modify (f : Blackjack -> Blackjack) : M unit := fun self => (Ok tt, f self).

(** [for x in l: body(x)]. *)
Fixpoint for_ {A} (l : list A) (body : A -> M unit) : M unit :=
  match l with
  | [] => ret tt
  | x :: l' => _ <- body x ;; for_ l' body
  end.

(** *** Python lists *)

(** [l.pop()]: the last element and the list without it; [None] stands for
    the [IndexError] of an empty list. *)
Definition list_pop {A} (l : list A) : option (A * list A) :=
  match reverse l with
  | [] => None
  | x :: r => Some (x, reverse r)
  end.

(** The position [l[i]] designates in a list of length [len]: [i] itself for
    [0 <= i < len], [len + i] for [-len <= i < 0], and [None] (an
    [IndexError]) otherwise. *)
Definition py_index (len : nat) (i : Z) : option nat :=
  if (0 <=? i) && (i <? Z.of_nat len) then Some (Z.to_nat i)
  else if (- Z.of_nat len <=? i) && (i <? 0) then Some (Z.to_nat (Z.of_nat len + i))
  else None.

(** *** Construction *)

(** The cards of one pass of the outer loop of [_create_stack], appended to
    [the_list]. *)
Definition extend_one_deck (the_list : list Card) : list Card :=
  fold_left
    (fun the_list suit =>
       the_list ++ map (mkCard suit) (range2 _LOWEST_CARD (_HIGHEST_CARD + 1)))
    _SUITS the_list.

(** [_create_stack]. [shuffle] is what this call of [random.shuffle] does to
    the list; the method has no statement that raises. *)
Definition _create_stack (shuffle : list Card -> list Card) (num_decks : Z)
    : result (list Card) :=
  let the_list := fold_left (fun the_list _ => extend_one_deck the_list) (range num_decks) [] in
  Ok (shuffle the_list).

(** [Blackjack.__init__]. *)
Definition __init__ (shuffle : list Card -> list Card) (num_decks num_players : Z)
    : result Blackjack :=
  match _create_stack shuffle num_decks with
  | Raise e => Raise e
  | Ok card_stack =>
      Ok {| _num_decks := num_decks;
            _num_players := num_players;
            _card_stack := card_stack;
            _dealer_stack := [];
            _player_stacks := map (fun _ => []) (range num_players);
            _player_dones := map (fun _ => false) (range num_players);
            _current_turn := 0;
            stdout := [] |}
  end.

(** *** Drawing *)

(** [_draw_card]: [self._card_stack.pop()]. *)
Definition _draw_card : M Card :=
  fun self =>
    match list_pop (_card_stack self) with
    | None => (Raise IndexError, self)
    | Some (card, rest) => (Ok card, set_card_stack rest self)
    end.

Definition print (line : output) : M unit :=
  modify (fun self => set_stdout (stdout self ++ [line]) self).

(** [dealer_draw]. *)
Definition dealer_draw (silent : bool) : M bool :=
  self <- get ;;
  let current_sum := _calculate_stack_sum (_dealer_stack self) in
  if current_sum <? 17 then
    drawn_card <- _draw_card ;;
    _ <- modify (fun self => set_dealer_stack (_dealer_stack self ++ [drawn_card]) self) ;;
    _ <- (if negb silent then print (DEALER_HIT drawn_card) else ret tt) ;;
    ret false
  else
    _ <- print (DEALER_STAY current_sum) ;;
    ret true.

(** [self._player_stacks[player_idx].append(card)]. *)
Definition player_stack_append (player_idx : Z) (card : Card) : M unit :=
  fun self =>
    match py_index (length (_player_stacks self)) player_idx with
    | None => (Raise IndexError, self)
    | Some i =>
        (Ok tt, set_player_stacks (alter (fun stack => stack ++ [card]) i (_player_stacks self)) self)
    end.

(** [player_draw]: the card is drawn first, then the player's stack is
    looked up. *)
Definition player_draw (player_idx : Z) : M Card :=
  drawn_card <- _draw_card ;;
  _ <- player_stack_append player_idx drawn_card ;;
  ret drawn_card.

(** [initial_deal]. *)
Definition initial_deal : M unit :=
  _ <- dealer_draw false ;;
  _ <- dealer_draw true ;;
  self <- get ;;
  for_ (range (_num_players self)) (fun player_idx =>
    for_ (range 2) (fun _ => _ <- player_draw player_idx ;; ret tt)).

(** [_get_sums] and [compute_winners]. *)
Definition _get_sums (self : Blackjack) : Z * list Z :=
  (_calculate_stack_sum (_dealer_stack self),
   map _calculate_stack_sum (_player_stacks self)).

Definition compute_winners (self : Blackjack) : list string :=
  let '(dealer_sum, player_sums) := _get_sums self in
  map (_compute_winner dealer_sum) player_sums.

(** ** The vocabulary of the specification *)

(** The outcomes, under the names the specification gives them. *)
Definition PUSH : string := "NONE".
Definition DEALER_WINS : string := "DEALER".
Definition PLAYER_WINS : string := "PLAYER".

Definition resolve (dealerSum playerSum : Z) : string :=
  _compute_winner dealerSum playerSum.

(** The seven rules of the decision order, as the specification lists them:
    a guard on (dealer sum, player sum) and the outcome it gives. *)
Definition resolve_rules : list ((Z -> Z -> bool) * string) :=
  [ (fun d p => (d =? 21) && (p =? 21), PUSH);
    (fun d p => d =? 21, DEALER_WINS);
    (fun d p => (d <? 21) && (d >? p), DEALER_WINS);
    (fun d p => p >? 21, DEALER_WINS);
    (fun d p => p =? 21, PLAYER_WINS);
    (fun d p => (d <? p) && (p <? 21), PLAYER_WINS);
    (fun d p => true, PUSH) ].

(** The first rule whose guard holds decides. *)
Fixpoint first_match (rules : list ((Z -> Z -> bool) * string)) (d p : Z) : option string :=
  match rules with
  | [] => None
  | (guard, outcome) :: rules' =>
      if guard d p then Some outcome else first_match rules' d p
  end.

(** A card as the data model has it: a rank from [_LOWEST_CARD] to
    [_HIGHEST_CARD], which is what [_create_stack] builds. *)
Definition valid_card (card : Card) : Prop :=
  _LOWEST_CARD <= number card <= _HIGHEST_CARD.

(** An Ace is a card of rank 1. *)
Definition Ace (s : string) : Card := mkCard s 1.

(** The number of Aces of a hand and the points of its other cards. *)
Definition num_aces (hand : list Card) : Z := Z.of_nat (length (ace_cards hand)).

Definition non_ace_sum (hand : list Card) : Z := _calculate_no_aces (non_ace_numbers hand).

(** The reference formula for a hand without Aces: [min(rank, 10)] summed. *)
Definition min_rank_sum (hand : list Card) : Z :=
  sum_Z (map (fun card => Z.min (number card) 10) hand).

(** The closed form of the evaluated sum: one Ace counts 11 when there is an
    Ace and the other cards sum to at most 10, every other Ace counts 1. *)
Definition closed_form (numAces s : Z) : Z :=
  if (1 <=? numAces) && (s <=? 10) then s + numAces + 10 else s + numAces.

(** An assignment of 1 or 11 to each of the [n] Aces of a hand. *)
Definition ace_valuation (n : Z) (vals : list Z) : Prop :=
  Z.of_nat (length vals) = n /\ Forall (fun v => v = _ACE_LOW \/ v = _ACE_HIGH) vals.

(** The total of a hand under an assignment. *)
Definition total_under (hand : list Card) (vals : list Z) : Z :=
  non_ace_sum hand + sum_Z vals.

(** [v] is the Blackjack-optimal total of [hand]: some assignment gives it,
    and whenever an assignment stays at or below 21, [v] does too and is at
    least that assignment's total. *)
Definition blackjack_optimal (hand : list Card) (v : Z) : Prop :=
  (exists vals, ace_valuation (num_aces hand) vals /\ v = total_under hand vals) /\
  (forall vals, ace_valuation (num_aces hand) vals ->
     total_under hand vals <= _WINNING_SUM ->
     v <= _WINNING_SUM /\ total_under hand vals <= v).

(** The 52 cards of one deck, in the order [_create_stack] builds them. *)
Definition one_deck : list Card :=
  flat_map (fun suit => map (mkCard suit) (range2 1 14)) _SUITS.

(** Every card of a game: the deck, the dealer's hand and the players' hands. *)
Definition all_cards (self : Blackjack) : list Card :=
  _card_stack self ++ _dealer_stack self ++ concat (_player_stacks self).

(** The calls that move cards, and the object as each leaves it, whether it
    returned or raised. *)
Inductive action : Type :=
  | InitialDeal
  | PlayerHit (player_idx : Z)
  | DealerPlay (silent : bool).

Definition perform (a : action) (self : Blackjack) : Blackjack :=
  match a with
  | InitialDeal => snd (initial_deal self)
  | PlayerHit player_idx => snd (player_draw player_idx self)
  | DealerPlay silent => snd (dealer_draw silent self)
  end.

(** Whether the call raised. *)
Definition raises (a : action) (self : Blackjack) : bool :=
  let failed {A} (r : result A) := match r with Ok _ => false | Raise _ => true end in
  match a with
  | InitialDeal => failed (fst (initial_deal self))
  | PlayerHit player_idx => failed (fst (player_draw player_idx self))
  | DealerPlay silent => failed (fst (dealer_draw silent self))
  end.

(** The object has one hand and one done flag per player, as [__init__]
    makes it and every method keeps it. *)
Definition well_formed (self : Blackjack) : Prop :=
  Z.of_nat (length (_player_stacks self)) = Z.max 0 (_num_players self).

(** The number of players and the number of hands of the object. *)
Definition shape (self : Blackjack) : Z * nat :=
  (_num_players self, length (_player_stacks self)).

(** A hit names a player: an index Python accepts for the list of hands. *)
Definition valid_action (a : action) (self : Blackjack) : Prop :=
  match a with
  | PlayerHit player_idx =>
      - Z.of_nat (length (_player_stacks self)) <= player_idx
        < Z.of_nat (length (_player_stacks self))
  | InitialDeal | DealerPlay _ => True
  end.

(** The objects a game goes through: the one [__init__] makes, and the one
    each call that names a player leaves. *)
Inductive reachable (shuffle : list Card -> list Card) (num_decks num_players : Z)
    : Blackjack -> Prop :=
  | reachable_init (self : Blackjack) :
      __init__ shuffle num_decks num_players = Ok self ->
      reachable shuffle num_decks num_players self
  | reachable_step (a : action) (self : Blackjack) :
      reachable shuffle num_decks num_players self ->
      valid_action a self ->
      reachable shuffle num_decks num_players (perform a self).

(** ** Printing a card *)

(** [Card._convert_card_num_to_str]; [str(num)] is the decimal numeral of
    the integer, with a minus sign when it is negative. *)
Definition _convert_card_num_to_str (num : Z) : string :=
  if num =? 1 then "Ace"
  else if num =? 11 then "Jack"
  else if num =? 12 then "Queen"
  else if num =? 13 then "King"
  else pretty num.

(** [Card.__str__]. *)
Definition __str__ (self : Card) : string :=
  _convert_card_num_to_str (number self) +:+ " of " +:+ suit self.

(** The characters of a numeral are none of these: the space and the
    initials of the four names. *)
Definition numeral_char (c : ascii) : Prop :=
  c <> " "%char /\ c <> "A"%char /\ c <> "J"%char /\ c <> "Q"%char /\ c <> "K"%char.

(** ** The dealer's turn *)

(** The loop of [run] that plays the dealer,
    [while not self.dealer_draw(): self.print_dealer_full()], whose body
    only prints: [dealer_draw] is called until it returns [True].  [fuel]
    bounds the number of calls; [None] is returned when they did not end the
    loop. *)
Fixpoint dealer_loop (fuel : nat) : M (option unit) :=
  match fuel with
  | O => ret None
  | S fuel' =>
      done <- dealer_draw false ;;
      if done : bool then ret (Some tt) else dealer_loop fuel'
  end.

(** The two cards of a player's first deal, in the order they are drawn. *)
Definition two_cards (hand : Card * Card) : list Card := [fst hand; snd hand].

(** ** The interactive methods *)

(** Reading [l[i]]; [None] stands for the [IndexError]. *)
Definition py_getitem {A} (l : list A) (i : Z) : option A :=
  match py_index (length l) i with
  | Some k => l !! k
  | None => None
  end.

(** The methods that only print, [print_dealer_single], [print_player_stack]
    and [print_dealer_full]: the text they write is not modelled, what is
    left of them is the [IndexError] of the indexing they do. *)
Definition print_dealer_single : M unit :=
  fun self =>
    match _dealer_stack self with
    | [] => (Raise IndexError, self)
    | _ :: _ => (Ok tt, self)
    end.

Definition print_player_stack (player_idx : Z) : M unit :=
  fun self =>
    match py_getitem (_player_stacks self) player_idx with
    | None => (Raise IndexError, self)
    | Some _ => (Ok tt, self)
    end.

Definition print_dealer_full : M unit := ret tt.

(** [self._player_dones[player_idx]], read and written. *)
Definition get_player_done (player_idx : Z) : M bool :=
  fun self =>
    match py_getitem (_player_dones self) player_idx with
    | None => (Raise IndexError, self)
    | Some done => (Ok done, self)
    end.

Definition set_player_dones (v : list bool) (self : Blackjack) : Blackjack :=
  mkBlackjack (_num_decks self) (_num_players self) (_card_stack self)
    (_dealer_stack self) (_player_stacks self) v (_current_turn self) (stdout self).

Definition set_current_turn (v : Z) (self : Blackjack) : Blackjack :=
  mkBlackjack (_num_decks self) (_num_players self) (_card_stack self)
    (_dealer_stack self) (_player_stacks self) (_player_dones self) v (stdout self).

Definition set_player_done (player_idx : Z) (done : bool) : M unit :=
  fun self =>
    match py_index (length (_player_dones self)) player_idx with
    | None => (Raise IndexError, self)
    | Some i => (Ok tt, set_player_dones (<[i := done]> (_player_dones self)) self)
    end.

(** The exceptions of the methods that read the player's answers: [input()]
    raises [EOFError] when there is no line left. *)
Inductive input_exn : Type :=
  | EOFError
  | Raised (e : exn).

Inductive io_result (A : Type) : Type :=
  | Returned (a : A)
  | Failed (e : input_exn).
Arguments Returned {A} a.
Arguments Failed {A} e.

(** A method that reads answers takes the lines still to be read and the
    object, and leaves both. *)
Definition IO (A : Type) : Type :=
  list string -> Blackjack -> io_result A * (list string * Blackjack).

Definition io_ret {A} (a : A) : IO A := fun stdin self => (Returned a, (stdin, self)).

Definition io_bind {A B} (m : IO A) (k : A -> IO B) : IO B :=
  fun stdin self =>
    match m stdin self with
    | (Returned a, (stdin', self')) => k a stdin' self'
    | (Failed e, rest) => (Failed e, rest)
    end.

Notation "x <~ m ;; k" := (io_bind m (fun x => k))
  (at level 100, m at next level, right associativity).

(** A method that reads no answer. *)
Definition lift {A} (m : M A) : IO A :=
  fun stdin self =>
    match m self with
    | (Ok a, self') => (Returned a, (stdin, self'))
    | (Raise e, self') => (Failed (Raised e), (stdin, self'))
    end.

Fixpoint io_for {A} (l : list A) (body : A -> IO unit) : IO unit :=
  match l with
  | [] => io_ret tt
  | x :: l' => _ <~ body x ;; io_for l' body
  end.

(** [_player_choice]. The loop asks again as long as the answer is neither
    [h] nor [s]; each round reads one line.  The prompt and the lines it
    prints are not modelled. *)
Fixpoint _player_choice (player_idx : Z) (stdin : list string) (self : Blackjack)
    : io_result bool * (list string * Blackjack) :=
  match stdin with
  | [] => (Failed EOFError, ([], self))
  | player_input :: stdin' =>
      if decide (player_input = "h") then
        (drawn_card <~ lift (player_draw player_idx) ;;
         self' <~ lift get ;;
         match py_getitem (_player_stacks self') player_idx with
         | None => lift (raise IndexError)
         | Some stack => io_ret (_calculate_stack_sum stack >? 21)
         end) stdin' self
      else if decide (player_input = "s") then
        (Returned true, (stdin', self))
      else _player_choice player_idx stdin' self
  end.

(** One round of the [for] loop of [run], for one player. *)
Definition player_turn (player_idx : Z) : IO unit :=
  done <~ lift (get_player_done player_idx) ;;
  if done : bool then io_ret tt
  else
    self <~ lift get ;;
    _ <~ (if _current_turn self <? 1 then lift (print_player_stack player_idx) else io_ret tt) ;;
    choice <~ _player_choice player_idx ;;
    _ <~ lift (set_player_done player_idx choice) ;;
    lift (print_player_stack player_idx).

(** The loop of [run] over the players' turns, [while not
    all(self._player_dones)]; [None] when [fuel] rounds did not end it. *)
Fixpoint players_loop (fuel : nat) : IO (option unit) :=
  match fuel with
  | O => io_ret None
  | S fuel' =>
      self <~ lift get ;;
      if forallb id (_player_dones self) then io_ret (Some tt)
      else
        _ <~ io_for (range (_num_players self)) player_turn ;;
        _ <~ lift (modify (fun self => set_current_turn (_current_turn self + 1) self)) ;;
        players_loop fuel'
  end.

(** [run]; [fuel] bounds the rounds of each of its two loops.  Of the lines
    it prints only those of [dealer_draw] are modelled. *)
Definition run (fuel : nat) : IO (option unit) :=
  _ <~ lift initial_deal ;;
  _ <~ lift print_dealer_single ;;
  players <~ players_loop fuel ;;
  match players with
  | None => io_ret None
  | Some _ =>
      dealer <~ lift (dealer_loop fuel) ;;
      match dealer with
      | None => io_ret None
      | Some _ => _ <~ lift print_dealer_full ;; io_ret (Some tt)
      end
  end.

(** The object has a hand and a done flag for each player. *)
Definition game_inv (self : Blackjack) : Prop :=
  well_formed self /\ length (_player_dones self) = length (_player_stacks self).

(** What the players' turns keep of the object: the number of players, of
    hands and of done flags, the dealer's hand, and the cards of the game;
    the deck does not grow. *)
Definition keeps (self self' : Blackjack) : Prop :=
  shape self' = shape self /\
  length (_player_dones self') = length (_player_dones self) /\
  _dealer_stack self' = _dealer_stack self /\
  Permutation (all_cards self') (all_cards self) /\
  (length (_card_stack self') <= length (_card_stack self))%nat.

(** How a method that reads answers can fail: the answers ran out and none
    is left, or the deck ran out and is empty. *)
Definition ran_out {A} (r : io_result A) (stdin' : list string) (self' : Blackjack) : Prop :=
  (r = Failed EOFError /\ stdin' = []) \/
  (r = Failed (Raised IndexError) /\ _card_stack self' = []).

(** * Properties *)

(** ** The evaluator *)

Lemma range_succ (k : nat) : range (Z.of_nat (S k)) = range (Z.of_nat k) ++ [Z.of_nat k].
Proof.
  unfold range. rewrite !Nat2Z.id, seq_S, map_app. reflexivity.
Qed.

Lemma range_nonpos (n : Z) : n <= 0 -> range n = [].
Proof.
  intros H. unfold range. replace (Z.to_nat n) with 0%nat by lia. reflexivity.
Qed.

Lemma length_range (n : Z) : length (range n) = Z.to_nat n.
Proof. unfold range. rewrite length_map, length_seq. reflexivity. Qed.

(** The loop counts the first Ace as 11 exactly when the other cards sum to
    at most 10, and every later Ace as 1. *)
Lemma ace_loop_closed (s : Z) (k : nat) :
  0 <= s ->
  fold_left (ace_step s _WINNING_SUM) (range (Z.of_nat k)) 0 =
  if (1 <=? Z.of_nat k) && (s <=? 10) then Z.of_nat k + 10 else Z.of_nat k.
Proof.
  intros Hs. induction k as [|k IH].
  - reflexivity.
  - rewrite range_succ, fold_left_app, IH. cbn [fold_left].
    unfold ace_step, _ACE_HIGH, _ACE_LOW, _WINNING_SUM.
    destruct (Z.leb_spec 1 (Z.of_nat k)), (Z.leb_spec s 10),
      (Z.leb_spec 1 (Z.of_nat (S k))); cbn [andb];
      repeat match goal with
             | |- context [?a <=? ?b] => destruct (Z.leb_spec a b)
             end; lia.
Qed.

Lemma clip_bounds (x : Z) : 1 <= clip 1 _MAX_ROYALTY x <= 10.
Proof. unfold clip, _MAX_ROYALTY. lia. Qed.

Lemma _calculate_no_aces_nonneg (stack : list Z) : 0 <= _calculate_no_aces stack.
Proof.
  unfold _calculate_no_aces. induction stack as [|x stack IH]; cbn.
  - lia.
  - pose proof (clip_bounds x). unfold sum_Z in IH. lia.
Qed.

Lemma evaluate_closed (hand : list Card) :
  evaluate hand = closed_form (num_aces hand) (non_ace_sum hand).
Proof.
  unfold evaluate, _calculate_stack_sum, calculate_optimal_ace_sum, closed_form.
  fold (num_aces hand). fold (non_ace_sum hand). unfold num_aces.
  rewrite ace_loop_closed by apply _calculate_no_aces_nonneg.
  destruct (_ && _); lia.
Qed.

Lemma sum_Z_app (l1 l2 : list Z) : sum_Z (l1 ++ l2) = sum_Z l1 + sum_Z l2.
Proof.
  unfold sum_Z. induction l1 as [|x l1 IH]; cbn; [reflexivity | rewrite IH; lia].
Qed.

Lemma sum_Z_Permutation (l1 l2 : list Z) : Permutation l1 l2 -> sum_Z l1 = sum_Z l2.
Proof.
  unfold sum_Z. induction 1; cbn; lia.
Qed.

Lemma num_aces_Permutation (h1 h2 : list Card) :
  Permutation h1 h2 -> num_aces h1 = num_aces h2.
Proof.
  intros HP. unfold num_aces, ace_cards. f_equal.
  apply Permutation_length. rewrite HP. reflexivity.
Qed.

Lemma non_ace_sum_Permutation (h1 h2 : list Card) :
  Permutation h1 h2 -> non_ace_sum h1 = non_ace_sum h2.
Proof.
  intros HP. unfold non_ace_sum, _calculate_no_aces, non_ace_numbers.
  apply sum_Z_Permutation. rewrite HP. reflexivity.
Qed.

(** On valid cards clipping to [1 .. 10] is [min(rank, 10)]. *)
Lemma non_ace_sum_valid (hand : list Card) :
  Forall valid_card hand ->
  non_ace_sum hand = min_rank_sum (filter (fun card => number card <> 1) hand).
Proof.
  unfold non_ace_sum, _calculate_no_aces, non_ace_numbers, min_rank_sum.
  induction 1 as [|card hand Hc _ IH]; [reflexivity|].
  rewrite filter_cons. destruct (decide (number card <> 1)); [|exact IH].
  cbn. unfold sum_Z in IH. rewrite IH. f_equal.
  unfold valid_card, _LOWEST_CARD, _HIGHEST_CARD in Hc.
  unfold clip, _MAX_ROYALTY. lia.
Qed.

(** A hand without Aces is its own list of non-Ace cards. *)
Lemma no_aces_filter (hand : list Card) :
  num_aces hand = 0 -> filter (fun card => number card <> 1) hand = hand.
Proof.
  unfold num_aces, ace_cards. induction hand as [|card hand IH]; [reflexivity|].
  rewrite !filter_cons. destruct (decide (number card = 1)) as [E|E].
  - cbn. lia.
  - intros H. destruct (decide (number card <> 1)); [|contradiction].
    rewrite IH by exact H. reflexivity.
Qed.

(** The total of the Aces under an assignment: one point each, and ten more
    for each Ace counted high. *)
Lemma ace_valuation_sum (n : Z) (vals : list Z) :
  ace_valuation n vals -> exists high, 0 <= high <= n /\ sum_Z vals = n + 10 * high.
Proof.
  intros [Hlen Hall]. subst n. induction Hall as [|v vals Hv _ IH].
  - exists 0. cbn. lia.
  - destruct IH as (high & Hh & Hsum). unfold sum_Z in *. cbn [foldr length].
    unfold _ACE_LOW, _ACE_HIGH in Hv. destruct Hv as [-> | ->].
    + exists high. lia.
    + exists (high + 1). lia.
Qed.

Lemma ace_valuation_all_low (n : nat) :
  ace_valuation (Z.of_nat n) (replicate n _ACE_LOW) /\
  sum_Z (replicate n _ACE_LOW) = Z.of_nat n.
Proof.
  unfold ace_valuation. rewrite length_replicate. split; [split|].
  - reflexivity.
  - apply Forall_replicate. left. reflexivity.
  - induction n as [|n IH]; [reflexivity|].
    unfold sum_Z in *. cbn [replicate foldr]. rewrite IH. unfold _ACE_LOW. lia.
Qed.

Lemma ace_valuation_one_high (n : nat) :
  ace_valuation (Z.of_nat (S n)) (_ACE_HIGH :: replicate n _ACE_LOW) /\
  sum_Z (_ACE_HIGH :: replicate n _ACE_LOW) = Z.of_nat (S n) + 10.
Proof.
  destruct (ace_valuation_all_low n) as [[Hlen Hall] Hsum].
  unfold ace_valuation. split; [split|].
  - cbn [length]. lia.
  - constructor; [right; reflexivity | exact Hall].
  - unfold sum_Z in *. cbn [foldr]. rewrite Hsum. unfold _ACE_HIGH. lia.
Qed.

Lemma num_aces_nonneg (hand : list Card) : 0 <= num_aces hand.
Proof. unfold num_aces. lia. Qed.

Lemma non_ace_sum_nonneg (hand : list Card) : 0 <= non_ace_sum hand.
Proof. apply _calculate_no_aces_nonneg. Qed.

(** The greedy value is always the total of some assignment. *)
Lemma evaluate_achieved (hand : list Card) :
  exists vals, ace_valuation (num_aces hand) vals /\ evaluate hand = total_under hand vals.
Proof.
  rewrite evaluate_closed. unfold closed_form, total_under.
  unfold num_aces. destruct (length (ace_cards hand)) as [|n] eqn:E.
  - exists []. split; [split; [reflexivity | constructor]|].
    change (sum_Z []) with 0.
    destruct (_ && _) eqn:Hb; [|lia].
    apply andb_true_iff in Hb as [Hb _]. apply Z.leb_le in Hb. lia.
  - destruct (non_ace_sum hand <=? 10).
    + destruct (ace_valuation_one_high n) as [Hv Hs].
      exists (_ACE_HIGH :: replicate n _ACE_LOW). split; [exact Hv|].
      rewrite Hs. replace (1 <=? Z.of_nat (S n)) with true by (symmetry; apply Z.leb_le; lia).
      cbn [andb]. lia.
    + destruct (ace_valuation_all_low (S n)) as [Hv Hs].
      exists (replicate (S n) _ACE_LOW). split; [exact Hv|].
      rewrite Hs, andb_false_r. lia.
Qed.

(** C10. At most one Ace is counted as 11: for every hand with [numAces]
    Aces and clipped non-Ace sum [s], the greedy loop adds [numAces + 10]
    when [numAces >= 1] and [s <= 10] and [numAces] otherwise, so that the
    evaluated sum is [s + numAces + 10] in the first case and [s + numAces]
    in the second: the loop equals the closed form. *)
Theorem evaluate_closed_form (hand : list Card) :
  let numAces := num_aces hand in
  let s := non_ace_sum hand in
  evaluate hand = closed_form numAces s /\
  calculate_optimal_ace_sum numAces s _WINNING_SUM =
    (if (1 <=? numAces) && (s <=? 10) then numAces + 10 else numAces) /\
  (1 <= numAces /\ s <= 10 -> evaluate hand = s + numAces + 10) /\
  (~ (1 <= numAces /\ s <= 10) -> evaluate hand = s + numAces).
Proof.
  cbn zeta. pose proof (evaluate_closed hand) as Hc.
  split; [exact Hc|]. split.
  - unfold calculate_optimal_ace_sum, num_aces.
    apply ace_loop_closed, non_ace_sum_nonneg.
  - rewrite Hc. unfold closed_form.
    destruct (Z.leb_spec 1 (num_aces hand)), (Z.leb_spec (non_ace_sum hand) 10);
      cbn [andb]; split; intros; lia.
Qed.

Lemma evaluate_closed_form_witness :
  evaluate [Ace "Spades"; mkCard "Hearts" 5; Ace "Clubs"] = 5 + 2 + 10.
Proof.
  destruct (evaluate_closed_form [Ace "Spades"; mkCard "Hearts" 5; Ace "Clubs"])
    as (_ & _ & H & _).
  apply H. split; vm_compute; discriminate.
Defined.

(** C3. For a hand of valid cards with at most one Ace, the evaluator is the
    reference formula: without Aces, the sum of [min(rank, 10)] over the
    cards, not capped (0 for the empty hand, 25 for King, Queen, 5); with
    exactly one Ace and non-Ace sum [s], [s + 11] if [s + 11 <= 21] and
    [s + 1] otherwise. *)
Theorem evaluate_at_most_one_ace (hand : list Card) :
  Forall valid_card hand ->
  (num_aces hand = 0 -> evaluate hand = min_rank_sum hand) /\
  (num_aces hand = 1 ->
     let s := min_rank_sum (filter (fun card => number card <> 1) hand) in
     evaluate hand = if s + 11 <=? 21 then s + 11 else s + 1) /\
  evaluate [] = 0 /\
  evaluate [mkCard "Spades" 13; mkCard "Hearts" 12; mkCard "Clubs" 5] = 25.
Proof.
  intros Hvalid. pose proof (evaluate_closed hand) as Hc.
  rewrite (non_ace_sum_valid hand Hvalid) in Hc. unfold closed_form in Hc.
  repeat split.
  - intros H0. rewrite Hc, H0, (no_aces_filter hand H0). cbn [Z.leb Z.compare andb]. lia.
  - intros H1. cbn zeta. rewrite Hc, H1.
    set (s := min_rank_sum _).
    destruct (Z.leb_spec s 10), (Z.leb_spec (s + 11) 21); cbn; lia.
Qed.

Lemma evaluate_at_most_one_ace_witness :
  Forall valid_card [mkCard "Hearts" 1; mkCard "Clubs" 12] /\
  evaluate [mkCard "Hearts" 1; mkCard "Clubs" 12] = 21.
Proof.
  assert (Hv : Forall valid_card [mkCard "Hearts" 1; mkCard "Clubs" 12]).
  { repeat constructor; vm_compute; discriminate. }
  split; [exact Hv|].
  destruct (evaluate_at_most_one_ace _ Hv) as (_ & H1 & _).
  exact (H1 eq_refl).
Defined.

(** C9. The evaluator is permutation-invariant: a hand and any reordering of
    it evaluate to the same sum. *)
Theorem evaluate_Permutation (hand hand' : list Card) :
  Permutation hand hand' -> evaluate hand = evaluate hand'.
Proof.
  intros HP. rewrite !evaluate_closed.
  rewrite (num_aces_Permutation _ _ HP), (non_ace_sum_Permutation _ _ HP).
  reflexivity.
Qed.

Lemma evaluate_Permutation_witness :
  evaluate [mkCard "Hearts" 1; mkCard "Clubs" 12; mkCard "Spades" 7] =
  evaluate [mkCard "Spades" 7; mkCard "Hearts" 1; mkCard "Clubs" 12].
Proof.
  apply evaluate_Permutation.
  apply Permutation_sym.
  exact (Permutation_cons_append [mkCard "Hearts" 1; mkCard "Clubs" 12] (mkCard "Spades" 7)).
Defined.

(** C1. The code breaks the claim.  [calculate_optimal_ace_sum] tests
    against [target_sum - card_idx], which sets a point aside for each Ace
    already decided and none for the Aces still to come, so the first Ace
    takes 11 whenever the other cards sum to at most 10.  On 10, Ace, Ace
    and on four Aces and an 8 the evaluator returns 22, above 21, although
    counting every Ace as 1 gives 12: 22 is not the Blackjack-optimal total
    there (nor the 21 of the claim's second example, which no assignment
    gives).  Two Aces do evaluate to 12. *)
Theorem evaluate_misses_optimum :
  let hand := [mkCard "Spades" 10; Ace "Spades"; Ace "Hearts"] in
  let hand' := [Ace "Spades"; Ace "Hearts"; Ace "Clubs"; Ace "Diamonds"; mkCard "Spades" 8] in
  (evaluate hand = 22 /\
   ace_valuation (num_aces hand) [1; 1] /\ total_under hand [1; 1] = 12 /\
   ~ blackjack_optimal hand (evaluate hand)) /\
  (evaluate hand' = 22 /\ evaluate hand' <> 21 /\
   ace_valuation (num_aces hand') [1; 1; 1; 1] /\ total_under hand' [1; 1; 1; 1] = 12 /\
   ~ blackjack_optimal hand' (evaluate hand')) /\
  evaluate [Ace "Spades"; Ace "Hearts"] = 12.
Proof.
  cbn zeta.
  assert (Hlow2 : ace_valuation 2 [1; 1]) by (split; [reflexivity | repeat constructor]).
  assert (Hlow4 : ace_valuation 4 [1; 1; 1; 1]) by (split; [reflexivity | repeat constructor]).
  split; [|split; [|reflexivity]].
  - split; [reflexivity|]. split; [exact Hlow2|]. split; [reflexivity|].
    intros [_ Hmax]. destruct (Hmax [1; 1] Hlow2) as [Hle _].
    + vm_compute. discriminate.
    + vm_compute in Hle. apply Hle. reflexivity.
  - split; [reflexivity|]. split; [discriminate|]. split; [exact Hlow4|].
    split; [reflexivity|].
    intros [_ Hmax]. destruct (Hmax [1; 1; 1; 1] Hlow4) as [Hle _].
    + vm_compute. discriminate.
    + vm_compute in Hle. apply Hle. reflexivity.
Qed.

(** Where the loop does reach the optimum: on a hand with no Ace, or with
    non-Ace sum above 10, or with non-Ace sum plus number of Aces at most 11,
    the evaluated sum is the maximum total not exceeding 21 whenever some
    assignment stays at or below 21. *)
Lemma evaluate_optimal (hand : list Card) :
  num_aces hand = 0 \/ 10 < non_ace_sum hand \/ non_ace_sum hand + num_aces hand <= 11 ->
  evaluate hand =
    non_ace_sum hand +
    calculate_optimal_ace_sum (num_aces hand) (non_ace_sum hand) _WINNING_SUM /\
  blackjack_optimal hand (evaluate hand) /\
  evaluate [Ace "Spades"; Ace "Hearts"] = 12.
Proof.
  intros Hcase. split; [reflexivity|]. split; [|reflexivity].
  split; [apply evaluate_achieved|].
  intros vals Hvals Hle.
  destruct (ace_valuation_sum _ _ Hvals) as (high & Hhigh & Hsum).
  unfold total_under, _WINNING_SUM in *. rewrite Hsum in *.
  rewrite evaluate_closed. unfold closed_form.
  pose proof (num_aces_nonneg hand). pose proof (non_ace_sum_nonneg hand).
  destruct (Z.leb_spec 1 (num_aces hand)), (Z.leb_spec (non_ace_sum hand) 10);
    cbn [andb]; lia.
Qed.

Lemma evaluate_optimal_witness :
  blackjack_optimal [Ace "Spades"; mkCard "Hearts" 9; Ace "Clubs"]
    (evaluate [Ace "Spades"; mkCard "Hearts" 9; Ace "Clubs"]).
Proof.
  apply (evaluate_optimal [Ace "Spades"; mkCard "Hearts" 9; Ace "Clubs"]).
  right; right. vm_compute. discriminate.
Defined.

(** ** The resolver *)

(** C2. [resolve] follows the seven rules in first-match order: both sums 21
    gives PUSH; dealer 21 alone gives DEALER_WINS; dealer below 21 and above
    the player gives DEALER_WINS; player above 21 gives DEALER_WINS, also
    when the dealer busted; player exactly 21 (dealer not) gives PLAYER_WINS;
    dealer below player below 21 gives PLAYER_WINS; every remaining pair
    gives PUSH. *)
Theorem resolve_decision_order (d p : Z) :
  first_match resolve_rules d p = Some (resolve d p) /\
  (d = 21 /\ p = 21 -> resolve d p = PUSH) /\
  (d = 21 /\ p <> 21 -> resolve d p = DEALER_WINS) /\
  (d < 21 /\ d > p -> resolve d p = DEALER_WINS) /\
  (p > 21 -> resolve d p = DEALER_WINS) /\
  (p = 21 /\ d <> 21 -> resolve d p = PLAYER_WINS) /\
  (d < p /\ p < 21 -> resolve d p = PLAYER_WINS) /\
  (d <> 21 /\ ~ (d < 21 /\ d > p) /\ ~ p > 21 /\ p <> 21 /\ ~ (d < p /\ p < 21) ->
     resolve d p = PUSH) /\
  resolve 21 21 = PUSH /\
  resolve 21 17 = DEALER_WINS /\
  resolve 18 22 = DEALER_WINS /\
  resolve 17 19 = PLAYER_WINS /\
  resolve 22 23 = DEALER_WINS.
Proof.
  unfold resolve, _compute_winner, resolve_rules, first_match, _WINNING_SUM,
    PUSH, DEALER_WINS, PLAYER_WINS.
  rewrite !Z.gtb_ltb.
  destruct (Z.eqb_spec d 21), (Z.eqb_spec p 21), (Z.ltb_spec d 21),
    (Z.ltb_spec p d), (Z.ltb_spec 21 p), (Z.ltb_spec d p), (Z.ltb_spec p 21);
    cbn [andb]; repeat split; intros; (reflexivity || lia).
Qed.

Lemma resolve_decision_order_witness :
  resolve 20 18 = DEALER_WINS.
Proof.
  destruct (resolve_decision_order 20 18) as (_ & _ & _ & H & _).
  apply H. lia.
Defined.

(** ** Drawing *)

Lemma list_pop_snoc {A} (rest : list A) (x : A) : list_pop (rest ++ [x]) = Some (x, rest).
Proof.
  unfold list_pop. rewrite reverse_app, reverse_singleton. cbn [app].
  rewrite reverse_involutive. reflexivity.
Qed.

Lemma list_pop_nil {A} : list_pop (@nil A) = None.
Proof. reflexivity. Qed.

(** A list is empty or has a last element. *)
Lemma list_snoc_cases {A} (l : list A) : l = [] \/ exists rest x, l = rest ++ [x].
Proof.
  destruct (reverse l) as [|x r] eqn:E.
  - left. apply (f_equal reverse) in E. rewrite reverse_involutive in E. exact E.
  - right. exists (reverse r), x.
    apply (f_equal reverse) in E. rewrite reverse_involutive, reverse_cons in E. exact E.
Qed.

(** C7. On a non-empty deck [_draw_card] removes and returns the last card
    of the list (the position last added: pop), and the deck is one card
    shorter; on an empty deck it raises (Python's IndexError for a pop from
    an empty list) and leaves the object as it was. *)
Theorem _draw_card_pop (self : Blackjack) :
  (forall rest card, _card_stack self = rest ++ [card] ->
     _draw_card self = (Ok card, set_card_stack rest self) /\
     last (_card_stack self) = Some card /\
     _card_stack (snd (_draw_card self)) = rest /\
     (length (_card_stack (snd (_draw_card self))) + 1 = length (_card_stack self))%nat) /\
  (_card_stack self <> [] -> exists card rest,
     _card_stack self = rest ++ [card] /\ _draw_card self = (Ok card, set_card_stack rest self)) /\
  (_card_stack self = [] -> _draw_card self = (Raise IndexError, self)).
Proof.
  assert (Hpop : forall rest card, _card_stack self = rest ++ [card] ->
            _draw_card self = (Ok card, set_card_stack rest self)).
  { intros rest card E. unfold _draw_card. rewrite E, list_pop_snoc. reflexivity. }
  split; [|split].
  - intros rest card E. rewrite (Hpop rest card E). repeat split.
    + rewrite E. apply last_snoc.
    + cbn. rewrite E, length_app. reflexivity.
  - intros Hne. destruct (list_snoc_cases (_card_stack self)) as [E | (rest & card & E)];
      [contradiction|].
    exists card, rest. split; [exact E | apply Hpop, E].
  - intros E. unfold _draw_card. rewrite E. reflexivity.
Qed.

Lemma _draw_card_pop_witness :
  let self := mkBlackjack 1 1 [mkCard "Hearts" 4; mkCard "Clubs" 9] [] [[]] [false] 0 [] in
  _draw_card self = (Ok (mkCard "Clubs" 9), set_card_stack [mkCard "Hearts" 4] self).
Proof.
  cbn zeta.
  destruct (_draw_card_pop
              (mkBlackjack 1 1 [mkCard "Hearts" 4; mkCard "Clubs" 9] [] [[]] [false] 0 []))
    as (H & _).
  destruct (H [mkCard "Hearts" 4] (mkCard "Clubs" 9)) as (Hd & _); [reflexivity|].
  exact Hd.
Defined.

(** The three ways a call of [dealer_draw] can go. *)
Lemma dealer_draw_stand (silent : bool) (self : Blackjack) :
  17 <= _calculate_stack_sum (_dealer_stack self) ->
  dealer_draw silent self =
    (Ok true,
     set_stdout (stdout self ++ [DEALER_STAY (_calculate_stack_sum (_dealer_stack self))]) self).
Proof.
  intros H. unfold dealer_draw, bind, get.
  destruct (Z.ltb_spec (_calculate_stack_sum (_dealer_stack self)) 17); [lia|].
  reflexivity.
Qed.

Lemma dealer_draw_hit (silent : bool) (self : Blackjack) (rest : list Card) (card : Card) :
  _calculate_stack_sum (_dealer_stack self) < 17 ->
  _card_stack self = rest ++ [card] ->
  dealer_draw silent self =
    (Ok false,
     mkBlackjack (_num_decks self) (_num_players self) rest (_dealer_stack self ++ [card])
       (_player_stacks self) (_player_dones self) (_current_turn self)
       (if silent then stdout self else stdout self ++ [DEALER_HIT card])).
Proof.
  intros H E. unfold dealer_draw, bind, get.
  destruct (Z.ltb_spec (_calculate_stack_sum (_dealer_stack self)) 17); [|lia].
  unfold _draw_card. rewrite E, list_pop_snoc.
  destruct silent; reflexivity.
Qed.

Lemma dealer_draw_empty (silent : bool) (self : Blackjack) :
  _calculate_stack_sum (_dealer_stack self) < 17 ->
  _card_stack self = [] ->
  dealer_draw silent self = (Raise IndexError, self).
Proof.
  intros H E. unfold dealer_draw, bind, get.
  destruct (Z.ltb_spec (_calculate_stack_sum (_dealer_stack self)) 17); [|lia].
  unfold _draw_card. rewrite E. reflexivity.
Qed.

(** C4. A call of [dealer_draw] on a dealer hand that evaluates below 17
    draws exactly one card from the deck (the last of the list), appends it
    to the dealer's hand and returns [False]; a call on a hand that evaluates
    to 17 or more returns [True] and leaves the dealer's hand and the deck as
    they were.  The players' hands are untouched in both cases. *)
Theorem dealer_draw_threshold (silent : bool) (self : Blackjack) :
  (evaluate (_dealer_stack self) < 17 ->
   forall rest card, _card_stack self = rest ++ [card] ->
   exists self',
     dealer_draw silent self = (Ok false, self') /\
     _card_stack self' = rest /\
     _dealer_stack self' = _dealer_stack self ++ [card] /\
     _player_stacks self' = _player_stacks self) /\
  (17 <= evaluate (_dealer_stack self) ->
   exists self',
     dealer_draw silent self = (Ok true, self') /\
     _card_stack self' = _card_stack self /\
     _dealer_stack self' = _dealer_stack self /\
     _player_stacks self' = _player_stacks self).
Proof.
  unfold evaluate. split.
  - intros H rest card E. eexists. split; [apply (dealer_draw_hit _ _ rest card H E)|].
    repeat split.
  - intros H. eexists. split; [apply (dealer_draw_stand _ _ H)|].
    repeat split.
Qed.

Lemma dealer_draw_threshold_witness :
  let self := mkBlackjack 1 1 [mkCard "Hearts" 4; mkCard "Clubs" 9]
                [mkCard "Spades" 10; mkCard "Hearts" 6] [[]] [false] 0 [] in
  exists self',
    dealer_draw true self = (Ok false, self') /\
    _card_stack self' = [mkCard "Hearts" 4] /\
    _dealer_stack self' = [mkCard "Spades" 10; mkCard "Hearts" 6; mkCard "Clubs" 9] /\
    _player_stacks self' = [[]].
Proof.
  cbn zeta.
  destruct (dealer_draw_threshold true
              (mkBlackjack 1 1 [mkCard "Hearts" 4; mkCard "Clubs" 9]
                 [mkCard "Spades" 10; mkCard "Hearts" 6] [[]] [false] 0 []))
    as (H & _).
  apply (H ltac:(vm_compute; reflexivity) [mkCard "Hearts" 4] (mkCard "Clubs" 9) eq_refl).
Defined.

(** The three ways a call of [player_draw] can go. *)
Lemma player_draw_empty (player_idx : Z) (self : Blackjack) :
  _card_stack self = [] -> player_draw player_idx self = (Raise IndexError, self).
Proof.
  intros E. unfold player_draw, bind, _draw_card. rewrite E. reflexivity.
Qed.

Lemma player_draw_ok (player_idx : Z) (self : Blackjack) (rest : list Card) (card : Card) (i : nat) :
  _card_stack self = rest ++ [card] ->
  py_index (length (_player_stacks self)) player_idx = Some i ->
  player_draw player_idx self =
    (Ok card,
     mkBlackjack (_num_decks self) (_num_players self) rest (_dealer_stack self)
       (alter (fun stack => stack ++ [card]) i (_player_stacks self))
       (_player_dones self) (_current_turn self) (stdout self)).
Proof.
  intros E Hi. unfold player_draw, bind, _draw_card. rewrite E, list_pop_snoc.
  unfold player_stack_append. cbn. rewrite Hi. reflexivity.
Qed.

Lemma player_draw_out_of_range (player_idx : Z) (self : Blackjack) (rest : list Card) (card : Card) :
  _card_stack self = rest ++ [card] ->
  py_index (length (_player_stacks self)) player_idx = None ->
  player_draw player_idx self = (Raise IndexError, set_card_stack rest self).
Proof.
  intros E Hi. unfold player_draw, bind, _draw_card. rewrite E, list_pop_snoc.
  unfold player_stack_append. cbn. rewrite Hi. reflexivity.
Qed.

Lemma py_index_Some (len : nat) (i : Z) :
  - Z.of_nat len <= i < Z.of_nat len ->
  exists k, py_index len i = Some k /\ (k < len)%nat /\
            Z.of_nat k = if i <? 0 then Z.of_nat len + i else i.
Proof.
  intros H. unfold py_index.
  destruct (Z.leb_spec 0 i), (Z.ltb_spec i (Z.of_nat len)), (Z.leb_spec (- Z.of_nat len) i),
    (Z.ltb_spec i 0); cbn [andb]; try lia; eexists; (split; [reflexivity|]); lia.
Qed.

Lemma py_index_None (len : nat) (i : Z) :
  i < - Z.of_nat len \/ Z.of_nat len <= i -> py_index len i = None.
Proof.
  intros H. unfold py_index.
  destruct (Z.leb_spec 0 i), (Z.ltb_spec i (Z.of_nat len)), (Z.leb_spec (- Z.of_nat len) i),
    (Z.ltb_spec i 0); cbn [andb]; try lia; reflexivity.
Qed.

Lemma py_index_lt (len : nat) (i : Z) (k : nat) : py_index len i = Some k -> (k < len)%nat.
Proof.
  unfold py_index.
  destruct (Z.leb_spec 0 i), (Z.ltb_spec i (Z.of_nat len)), (Z.leb_spec (- Z.of_nat len) i),
    (Z.ltb_spec i 0); cbn [andb]; intros [= <-]; lia.
Qed.

(** C5, as stated, fails: [player_draw] consults no done flag and accepts the
    index [-1].  Player 0 is marked done and yet draws the 9 of Clubs into
    the hand; the index [-1], outside [0 .. numPlayers-1], does the same. *)
Lemma player_draw_done_player :
  let self := mkBlackjack 1 1 [mkCard "Hearts" 4; mkCard "Clubs" 9] []
                [[mkCard "Spades" 10]] [true] 1 [] in
  let self' := mkBlackjack 1 1 [mkCard "Hearts" 4] []
                 [[mkCard "Spades" 10; mkCard "Clubs" 9]] [true] 1 [] in
  _player_dones self !! 0%nat = Some true /\
  player_draw 0 self = (Ok (mkCard "Clubs" 9), self') /\
  player_draw (-1) self = (Ok (mkCard "Clubs" 9), self').
Proof. cbn zeta. repeat split. Qed.

(** C5, amended. [player_draw] has no [InvalidPlayerError] and does not look
    at the done flags.  On a non-empty deck it first pops the last card; for
    [player_idx] from [-numPlayers] to [numPlayers - 1] (a negative index
    counts from the last player) it appends the card to that player's hand,
    leaves the other hands as they are and returns the card; for any other
    [player_idx] it raises [IndexError] with every hand as it was, the card
    having left the deck. *)
Theorem player_draw_index (player_idx : Z) (self : Blackjack) (rest : list Card) (card : Card) :
  _card_stack self = rest ++ [card] ->
  let n := Z.of_nat (length (_player_stacks self)) in
  (- n <= player_idx < n ->
   exists (i : nat) (hand : list Card) (self' : Blackjack),
     Z.of_nat i = (if player_idx <? 0 then n + player_idx else player_idx) /\
     _player_stacks self !! i = Some hand /\
     player_draw player_idx self = (Ok card, self') /\
     _card_stack self' = rest /\
     _player_stacks self' = <[i := hand ++ [card]]> (_player_stacks self) /\
     _dealer_stack self' = _dealer_stack self /\
     _player_dones self' = _player_dones self) /\
  (player_idx < - n \/ n <= player_idx ->
   player_draw player_idx self = (Raise IndexError, set_card_stack rest self) /\
   _player_stacks (snd (player_draw player_idx self)) = _player_stacks self).
Proof.
  intros E n. split.
  - intros Hrange.
    destruct (py_index_Some (length (_player_stacks self)) player_idx Hrange)
      as (i & Hi & Hlt & Hpos).
    destruct (lookup_lt_is_Some_2 (_player_stacks self) i Hlt) as [hand Hhand].
    exists i, hand. eexists. split; [exact Hpos|]. split; [exact Hhand|].
    split; [apply (player_draw_ok _ _ rest card i E Hi)|].
    cbn. repeat split.
    apply list_eq. intros j. destruct (decide (i = j)) as [<-|Hne].
    + rewrite list_lookup_alter_eq, Hhand, list_lookup_insert_eq by exact Hlt.
      reflexivity.
    + rewrite list_lookup_alter_ne, list_lookup_insert_ne by exact Hne.
      reflexivity.
  - intros Hout.
    rewrite (player_draw_out_of_range _ _ rest card E (py_index_None _ _ Hout)).
    split; reflexivity.
Qed.

Lemma player_draw_index_witness :
  let self := mkBlackjack 1 2 [mkCard "Hearts" 4; mkCard "Clubs" 9] []
                [[mkCard "Spades" 10]; []] [true; false] 1 [] in
  player_draw 2 self = (Raise IndexError, set_card_stack [mkCard "Hearts" 4] self).
Proof.
  cbn zeta.
  destruct (player_draw_index 2
              (mkBlackjack 1 2 [mkCard "Hearts" 4; mkCard "Clubs" 9] []
                 [[mkCard "Spades" 10]; []] [true; false] 1 [])
              [mkCard "Hearts" 4] (mkCard "Clubs" 9) eq_refl) as (_ & H).
  apply H. right. vm_compute. discriminate.
Defined.

(** ** Construction *)

Lemma extend_one_deck_app (the_list : list Card) :
  extend_one_deck the_list = the_list ++ one_deck.
Proof.
  unfold extend_one_deck, one_deck, _SUITS. cbn [fold_left flat_map].
  rewrite <- !app_assoc, app_nil_r. reflexivity.
Qed.

Lemma extend_loop {A} (l : list A) (the_list : list Card) :
  fold_left (fun the_list _ => extend_one_deck the_list) l the_list =
  the_list ++ concat (replicate (length l) one_deck).
Proof.
  revert the_list. induction l as [|x l IH]; intros the_list; cbn [fold_left length replicate concat].
  - rewrite app_nil_r. reflexivity.
  - rewrite IH, extend_one_deck_app, <- app_assoc. reflexivity.
Qed.

Lemma _create_stack_decks (shuffle : list Card -> list Card) (num_decks : Z) :
  _create_stack shuffle num_decks =
  Ok (shuffle (concat (replicate (Z.to_nat num_decks) one_deck))).
Proof.
  unfold _create_stack. rewrite extend_loop, length_range. reflexivity.
Qed.

Lemma map_const_range {A} (x : A) (n : Z) :
  map (fun _ => x) (range n) = replicate (Z.to_nat n) x.
Proof.
  unfold range. rewrite map_map. generalize 0%nat.
  induction (Z.to_nat n) as [|k IH]; intros start; cbn; [reflexivity|].
  rewrite IH. reflexivity.
Qed.

Lemma __init___value (shuffle : list Card -> list Card) (num_decks num_players : Z) :
  __init__ shuffle num_decks num_players =
    Ok (mkBlackjack num_decks num_players
          (shuffle (concat (replicate (Z.to_nat num_decks) one_deck))) []
          (replicate (Z.to_nat num_players) []) (replicate (Z.to_nat num_players) false)
          0 []).
Proof.
  unfold __init__. rewrite _create_stack_decks, !map_const_range. reflexivity.
Qed.

(** C6, as stated, fails: zero decks and zero players are accepted, and give
    a game with an empty deck and no player. *)
Lemma __init___zero_decks_zero_players :
  _create_stack reverse 0 = Ok [] /\
  __init__ reverse 0 0 = Ok (mkBlackjack 0 0 [] [] [] [] 0 []).
Proof. split; reflexivity. Qed.

(** C6, amended. [__init__] checks neither argument and never fails: for all
    integers it makes a game whose deck is the shuffled list of
    [max(num_decks, 0)] decks, with [max(num_players, 0)] empty hands and
    done flags; [_create_stack] never fails either, and below one deck it
    shuffles the empty list. *)
Theorem __init___total (shuffle : list Card -> list Card) (num_decks num_players : Z) :
  _create_stack shuffle num_decks =
    Ok (shuffle (concat (replicate (Z.to_nat num_decks) one_deck))) /\
  __init__ shuffle num_decks num_players =
    Ok (mkBlackjack num_decks num_players
          (shuffle (concat (replicate (Z.to_nat num_decks) one_deck))) []
          (replicate (Z.to_nat num_players) []) (replicate (Z.to_nat num_players) false)
          0 []) /\
  (num_decks < 1 -> _create_stack shuffle num_decks = Ok (shuffle [])) /\
  (num_players < 1 ->
   exists self, __init__ shuffle num_decks num_players = Ok self /\
                _player_stacks self = [] /\ _player_dones self = []).
Proof.
  pose proof (_create_stack_decks shuffle num_decks) as Hc.
  pose proof (__init___value shuffle num_decks num_players) as Hi.
  split; [exact Hc|]. split; [exact Hi|]. split.
  - intros H. rewrite Hc. replace (Z.to_nat num_decks) with 0%nat by lia. reflexivity.
  - intros H. eexists. split; [exact Hi|].
    cbn. replace (Z.to_nat num_players) with 0%nat by lia. split; reflexivity.
Qed.

Lemma __init___total_witness :
  _create_stack reverse (-3) = Ok (reverse []).
Proof.
  destruct (__init___total reverse (-3) 2) as (_ & _ & H & _).
  apply H. lia.
Defined.

(** ** Conservation of the cards *)

Lemma in_range (n x : Z) : In x (range n) <-> 0 <= x < n.
Proof.
  unfold range. rewrite in_map_iff. split.
  - intros (k & <- & Hk). apply in_seq in Hk. lia.
  - intros H. exists (Z.to_nat x). split; [lia|]. apply in_seq. lia.
Qed.

Lemma in_range2 (lo hi x : Z) : In x (range2 lo hi) <-> lo <= x < hi.
Proof.
  unfold range2. rewrite in_map_iff. split.
  - intros (k & <- & Hk). apply in_range in Hk. lia.
  - intros H. exists (x - lo). split; [lia|]. apply in_range. lia.
Qed.

Lemma in_one_deck (card : Card) :
  In card one_deck <-> In (suit card) _SUITS /\ 1 <= number card <= 13.
Proof.
  unfold one_deck. rewrite in_flat_map. split.
  - intros (s & Hs & Hc). apply in_map_iff in Hc as (num & <- & Hnum).
    apply in_range2 in Hnum. cbn [suit number]. split; [exact Hs | lia].
  - intros [Hs Hn]. exists (suit card). split; [exact Hs|].
    apply in_map_iff. exists (number card). split; [destruct card; reflexivity|].
    apply in_range2. lia.
Qed.

Lemma NoDup_one_deck : NoDup one_deck.
Proof. apply (bool_decide_unpack _). vm_compute. reflexivity. Qed.

Lemma length_concat_replicate {A} (n : nat) (l : list A) :
  length (concat (replicate n l)) = (n * length l)%nat.
Proof.
  induction n as [|n IH]; cbn [replicate concat]; [reflexivity|].
  rewrite length_app, IH. lia.
Qed.

(** Appending a card to one of the hands adds that card to their cards. *)
Lemma concat_alter_snoc (stacks : list (list Card)) (i : nat) (card : Card) :
  (i < length stacks)%nat ->
  Permutation (concat (alter (fun stack => stack ++ [card]) i stacks)) (card :: concat stacks).
Proof.
  revert i. induction stacks as [|stack stacks IH]; intros i Hi; cbn [length] in Hi; [lia|].
  destruct i as [|i]; cbn [alter list_alter concat].
  - rewrite <- app_assoc. cbn [app].
    rewrite <- Permutation_middle. reflexivity.
  - rewrite (IH i) by lia. rewrite <- Permutation_middle. reflexivity.
Qed.

Lemma dealer_draw_cards (silent : bool) (self : Blackjack) :
  shape (snd (dealer_draw silent self)) = shape self /\
  Permutation (all_cards (snd (dealer_draw silent self))) (all_cards self).
Proof.
  destruct (Z.lt_ge_cases (_calculate_stack_sum (_dealer_stack self)) 17) as [H|H].
  - destruct (list_snoc_cases (_card_stack self)) as [E | (rest & card & E)].
    + rewrite (dealer_draw_empty _ _ H E). split; reflexivity.
    + rewrite (dealer_draw_hit _ _ rest card H E). split; [reflexivity|].
      unfold all_cards. cbn. rewrite E, <- !app_assoc. cbn [app].
      apply Permutation_app_head. rewrite <- Permutation_middle. reflexivity.
  - rewrite (dealer_draw_stand _ _ H). split; reflexivity.
Qed.

Lemma player_draw_shape (player_idx : Z) (self : Blackjack) :
  shape (snd (player_draw player_idx self)) = shape self.
Proof.
  destruct (list_snoc_cases (_card_stack self)) as [E | (rest & card & E)].
  - rewrite (player_draw_empty _ _ E). reflexivity.
  - destruct (py_index (length (_player_stacks self)) player_idx) as [i|] eqn:Hi.
    + rewrite (player_draw_ok _ _ rest card i E Hi). unfold shape. cbn.
      rewrite length_alter. reflexivity.
    + rewrite (player_draw_out_of_range _ _ rest card E Hi). reflexivity.
Qed.

Lemma player_draw_cards (player_idx : Z) (self : Blackjack) :
  - Z.of_nat (length (_player_stacks self)) <= player_idx
    < Z.of_nat (length (_player_stacks self)) ->
  Permutation (all_cards (snd (player_draw player_idx self))) (all_cards self).
Proof.
  intros Hrange.
  destruct (list_snoc_cases (_card_stack self)) as [E | (rest & card & E)].
  - rewrite (player_draw_empty _ _ E). reflexivity.
  - destruct (py_index_Some _ _ Hrange) as (i & Hi & Hlt & _).
    rewrite (player_draw_ok _ _ rest card i E Hi).
    unfold all_cards. cbn. rewrite E, (concat_alter_snoc _ _ _ Hlt), <- !app_assoc.
    cbn [app]. apply Permutation_app_head.
    rewrite <- Permutation_middle. reflexivity.
Qed.

(** Whatever the index, a hit adds no card to the game. *)
Lemma player_draw_cards_sub (player_idx : Z) (self : Blackjack) :
  submseteq (all_cards (snd (player_draw player_idx self))) (all_cards self).
Proof.
  destruct (list_snoc_cases (_card_stack self)) as [E | (rest & card & E)].
  - rewrite (player_draw_empty _ _ E). reflexivity.
  - destruct (py_index (length (_player_stacks self)) player_idx) as [i|] eqn:Hi.
    + apply Permutation_submseteq, player_draw_cards.
      pose proof (py_index_lt _ _ _ Hi) as Hlt. revert Hi. unfold py_index.
      destruct (Z.leb_spec 0 player_idx), (Z.ltb_spec player_idx (Z.of_nat (length (_player_stacks self)))),
        (Z.leb_spec (- Z.of_nat (length (_player_stacks self))) player_idx),
        (Z.ltb_spec player_idx 0); cbn [andb]; intros [=]; lia.
    + rewrite (player_draw_out_of_range _ _ rest card E Hi).
      unfold all_cards. cbn. rewrite E.
      apply submseteq_skips_r, submseteq_inserts_r. reflexivity.
Qed.

(** A property that every step of a sequence keeps is kept by the sequence,
    whether it runs to its end or stops at an exception. *)
Lemma bind_preserves {A B} (P : Blackjack -> Prop) (m : M A) (k : A -> M B) :
  (forall self, P self -> P (snd (m self))) ->
  (forall a self, P self -> P (snd (k a self))) ->
  forall self, P self -> P (snd (bind m k self)).
Proof.
  intros Hm Hk self HP. unfold bind. specialize (Hm self HP).
  destruct (m self) as [[a|e] self']; cbn [snd] in *; [apply Hk, Hm | exact Hm].
Qed.

Lemma for_preserves {A} (P : Blackjack -> Prop) (l : list A) (body : A -> M unit) :
  (forall x, In x l -> forall self, P self -> P (snd (body x self))) ->
  forall self, P self -> P (snd (for_ l body self)).
Proof.
  induction l as [|x l IH]; intros Hbody self HP; cbn [for_].
  - exact HP.
  - apply bind_preserves; [apply Hbody; left; reflexivity | | exact HP].
    intros _. apply IH. intros y Hy. apply Hbody. right. exact Hy.
Qed.

Lemma ret_preserves {A} (P : Blackjack -> Prop) (a : A) (self : Blackjack) :
  P self -> P (snd (ret a self)).
Proof. intros HP. exact HP. Qed.

(** Being well formed depends on the shape only. *)
Lemma well_formed_shape (self self' : Blackjack) :
  shape self' = shape self -> well_formed self -> well_formed self'.
Proof.
  unfold shape, well_formed. intros [= -> ->]. tauto.
Qed.

Lemma initial_deal_cards (self : Blackjack) :
  well_formed self ->
  shape (snd (initial_deal self)) = shape self /\
  Permutation (all_cards (snd (initial_deal self))) (all_cards self).
Proof.
  intros Hwf.
  set (P := fun s : Blackjack =>
              shape s = shape self /\ Permutation (all_cards s) (all_cards self)).
  assert (Hdealer : forall silent s, P s -> P (snd (dealer_draw silent s))).
  { intros silent s [Hs Hc]. destruct (dealer_draw_cards silent s) as [Hs' Hc'].
    split; [congruence | rewrite Hc'; exact Hc]. }
  change (P (snd (initial_deal self))). unfold initial_deal.
  apply bind_preserves; [apply Hdealer | | split; reflexivity].
  intros _. apply bind_preserves; [apply Hdealer|].
  intros _ s HP. change (P (snd (for_ (range (_num_players s)) (fun player_idx =>
    for_ (range 2) (fun _ => _ <- player_draw player_idx ;; ret tt)) s))).
  assert (Hshape : forall s', P s' ->
            Z.of_nat (length (_player_stacks s')) = Z.max 0 (_num_players s)).
  { intros s' [Hs' _]. destruct HP as [Hs _]. unfold shape in *.
    unfold well_formed in Hwf. congruence. }
  apply for_preserves; [|exact HP].
  intros player_idx Hidx. apply in_range in Hidx.
  apply for_preserves. intros _ _.
  apply bind_preserves; [|intros; assumption].
  intros s' HP'. pose proof (Hshape s' HP') as Hlen. destruct HP' as [Hs' Hc'].
  split.
  - rewrite player_draw_shape. exact Hs'.
  - rewrite player_draw_cards by lia. exact Hc'.
Qed.

Lemma initial_deal_cards_sub (self : Blackjack) :
  submseteq (all_cards (snd (initial_deal self))) (all_cards self).
Proof.
  set (P := fun s : Blackjack => submseteq (all_cards s) (all_cards self)).
  assert (Hdealer : forall silent s, P s -> P (snd (dealer_draw silent s))).
  { intros silent s Hs. destruct (dealer_draw_cards silent s) as [_ Hc].
    unfold P. rewrite Hc. exact Hs. }
  change (P (snd (initial_deal self))). unfold initial_deal.
  apply bind_preserves; [apply Hdealer | | unfold P; reflexivity].
  intros _. apply bind_preserves; [apply Hdealer|].
  intros _. apply bind_preserves; [intros; assumption|].
  intros s. apply for_preserves. intros player_idx _.
  apply for_preserves. intros _ _.
  apply bind_preserves; [|intros; assumption].
  intros s' Hs'. unfold P. etransitivity; [apply player_draw_cards_sub | exact Hs'].
Qed.

(** A call that names a player keeps the shape of the object and its cards. *)
Lemma perform_cards (a : action) (self : Blackjack) :
  well_formed self -> valid_action a self ->
  well_formed (perform a self) /\ Permutation (all_cards (perform a self)) (all_cards self).
Proof.
  intros Hwf Hvalid. destruct a as [|player_idx|silent]; cbn [perform valid_action] in *.
  - destruct (initial_deal_cards self Hwf) as [Hs Hc].
    split; [exact (well_formed_shape _ _ Hs Hwf) | exact Hc].
  - split; [exact (well_formed_shape _ _ (player_draw_shape player_idx self) Hwf)|].
    apply player_draw_cards, Hvalid.
  - destruct (dealer_draw_cards silent self) as [Hs Hc].
    split; [exact (well_formed_shape _ _ Hs Hwf) | exact Hc].
Qed.

Lemma perform_cards_sub (a : action) (self : Blackjack) :
  submseteq (all_cards (perform a self)) (all_cards self).
Proof.
  destruct a as [|player_idx|silent]; cbn [perform].
  - apply initial_deal_cards_sub.
  - apply player_draw_cards_sub.
  - apply Permutation_submseteq, dealer_draw_cards.
Qed.

Lemma reachable_cards (shuffle : list Card -> list Card) (num_decks num_players : Z)
    (self : Blackjack) :
  (forall l, Permutation (shuffle l) l) ->
  reachable shuffle num_decks num_players self ->
  well_formed self /\
  Permutation (all_cards self) (concat (replicate (Z.to_nat num_decks) one_deck)).
Proof.
  intros Hshuffle. induction 1 as [self Hinit | a self _ [Hwf Hc] Hvalid].
  - rewrite __init___value in Hinit. injection Hinit as <-. split.
    + unfold well_formed. cbn. rewrite length_replicate. lia.
    + unfold all_cards. cbn. rewrite Hshuffle.
      assert (Hnil : forall n, concat (replicate n (@nil Card)) = []).
      { induction n as [|n IH]; [reflexivity | exact IH]. }
      rewrite Hnil, app_nil_r. reflexivity.
  - destruct (perform_cards a self Hwf Hvalid) as [Hwf' Hc'].
    split; [exact Hwf' | rewrite Hc'; exact Hc].
Qed.

(** C8, as stated, fails: a hit that names no player pops the card before
    the hand is looked up, and the card leaves the game.  With one player,
    a hit for index 1 turns the two cards of the game into one. *)
Lemma player_draw_loses_card :
  let self := mkBlackjack 1 1 [mkCard "Hearts" 4; mkCard "Clubs" 9] [] [[]] [false] 0 [] in
  player_draw 1 self = (Raise IndexError, set_card_stack [mkCard "Hearts" 4] self) /\
  all_cards self = [mkCard "Hearts" 4; mkCard "Clubs" 9] /\
  all_cards (perform (PlayerHit 1) self) = [mkCard "Hearts" 4] /\
  ~ Permutation (all_cards (perform (PlayerHit 1) self)) (all_cards self).
Proof.
  cbn zeta. repeat split.
  intros HP. apply Permutation_length in HP. discriminate HP.
Qed.

(** C8, amended. [_create_stack] yields the 52 cards of a deck (each of the
    4 suits with each rank 1 to 13, once) repeated [max(num_decks, 0)] times,
    in the order the shuffle gives them.  Initial deal, dealer play and every
    hit whose index names a player (from [-numPlayers] to [numPlayers - 1])
    only move cards from the deck into a hand: the cards of the deck, the
    dealer's hand and the players' hands together stay the same multiset, and
    throughout a game of such calls they are the cards of the deck as built.
    Whatever the call, no card is duplicated or regenerated: the cards after
    it are among the cards before it. *)
Theorem cards_conserved (shuffle : list Card -> list Card) (num_decks num_players : Z) :
  (forall l, Permutation (shuffle l) l) ->
  (exists deck,
     _create_stack shuffle num_decks = Ok deck /\
     Permutation deck (concat (replicate (Z.to_nat num_decks) one_deck)) /\
     length deck = (Z.to_nat num_decks * 52)%nat) /\
  (forall card, In card one_deck <-> In (suit card) _SUITS /\ 1 <= number card <= 13) /\
  NoDup one_deck /\
  (forall a self, well_formed self -> valid_action a self ->
     well_formed (perform a self) /\
     Permutation (all_cards (perform a self)) (all_cards self)) /\
  (forall a self, submseteq (all_cards (perform a self)) (all_cards self)) /\
  (forall self, reachable shuffle num_decks num_players self ->
     Permutation (all_cards self) (concat (replicate (Z.to_nat num_decks) one_deck))).
Proof.
  intros Hshuffle. split; [|split; [|split; [|split; [|split]]]].
  - eexists. split; [apply _create_stack_decks|]. split; [apply Hshuffle|].
    rewrite (Permutation_length (Hshuffle _)), length_concat_replicate. reflexivity.
  - apply in_one_deck.
  - apply NoDup_one_deck.
  - apply perform_cards.
  - apply perform_cards_sub.
  - intros self Hreach. apply (reachable_cards shuffle num_decks num_players self Hshuffle Hreach).
Qed.

Lemma cards_conserved_witness :
  exists deck,
    _create_stack reverse 2 = Ok deck /\
    Permutation deck (concat (replicate 2 one_deck)) /\
    length deck = 104%nat.
Proof.
  destruct (cards_conserved reverse 2 1 reverse_Permutation) as (H & _).
  exact H.
Defined.

(** * Further properties of the code *)

(** ** Points *)

Lemma sum_clip_bounds (stack : list Z) :
  Z.of_nat (length stack) <= _calculate_no_aces stack <= 10 * Z.of_nat (length stack).
Proof.
  unfold _calculate_no_aces, sum_Z.
  induction stack as [|x stack IH]; cbn [map foldr length]; [lia|].
  pose proof (clip_bounds x). lia.
Qed.

(** [_calculate_no_aces] counts every entry between 1 and 10 points: the sum
    lies between the number of entries and ten times that number, whatever
    the entries (an entry of 0 or less counts 1, an entry above 10 counts
    10); only the empty list sums to 0. *)
Theorem _calculate_no_aces_bounds (stack : list Z) :
  Z.of_nat (length stack) <= _calculate_no_aces stack <= 10 * Z.of_nat (length stack) /\
  (_calculate_no_aces stack = 0 <-> stack = []) /\
  (forall x, x <= 1 -> _calculate_no_aces (x :: stack) = 1 + _calculate_no_aces stack) /\
  (forall x, 10 <= x -> _calculate_no_aces (x :: stack) = 10 + _calculate_no_aces stack).
Proof.
  pose proof (sum_clip_bounds stack) as Hb. split; [exact Hb|]. split; [split|split].
  - intros H0. destruct stack; [reflexivity|]. cbn [length] in Hb. lia.
  - intros ->. reflexivity.
  - intros x Hx. unfold _calculate_no_aces, sum_Z, clip, _MAX_ROYALTY. cbn [map foldr]. lia.
  - intros x Hx. unfold _calculate_no_aces, sum_Z, clip, _MAX_ROYALTY. cbn [map foldr]. lia.
Qed.

Lemma _calculate_no_aces_bounds_witness :
  _calculate_no_aces [-4; 7] = 1 + _calculate_no_aces [7].
Proof.
  destruct (_calculate_no_aces_bounds [7]) as (_ & _ & H & _).
  apply H. lia.
Defined.

(** The loop of [calculate_optimal_ace_sum], for any current and target sum. *)
Lemma ace_loop_general (s T : Z) (k : nat) :
  exists high,
    0 <= high <= Z.of_nat k /\
    fold_left (ace_step s T) (range (Z.of_nat k)) 0 = Z.of_nat k + 10 * high /\
    (T - s < 11 -> high = 0) /\
    (s + 11 <= T -> (1 <= k)%nat -> 1 <= high).
Proof.
  induction k as [|k (high & Hh & Hfold & Hlow & Hfirst)].
  - exists 0. cbn. repeat split; lia.
  - rewrite range_succ, fold_left_app, Hfold. cbn [fold_left].
    unfold ace_step, _ACE_HIGH, _ACE_LOW.
    destruct (Z.leb_spec (s + (Z.of_nat k + 10 * high) + 11) (T - Z.of_nat k)).
    + exists (high + 1). repeat split; lia.
    + exists high. repeat split; lia.
Qed.

(** [calculate_optimal_ace_sum] counts each Ace 1 or 11, for any current and
    target sum: with [n] the number of Aces (none when the argument is
    negative) the result is [n] plus 10 for each Ace counted high, so it lies
    between [n] and [11 * n]; no Ace is counted high when 11 does not fit
    under the target, and with at least one Ace one is counted high when 11
    fits. *)
Theorem calculate_optimal_ace_sum_bounds (number_of_ace_cards current_sum target_sum : Z) :
  let n := Z.max 0 number_of_ace_cards in
  let r := calculate_optimal_ace_sum number_of_ace_cards current_sum target_sum in
  (exists high, 0 <= high <= n /\ r = n + 10 * high) /\
  n <= r <= 11 * n /\
  (target_sum - current_sum < 11 -> r = n) /\
  (current_sum + 11 <= target_sum -> 1 <= number_of_ace_cards -> n + 10 <= r).
Proof.
  cbn zeta. unfold calculate_optimal_ace_sum.
  assert (Hr : range number_of_ace_cards = range (Z.of_nat (Z.to_nat number_of_ace_cards))).
  { unfold range. rewrite Nat2Z.id. reflexivity. }
  rewrite Hr.
  destruct (ace_loop_general current_sum target_sum (Z.to_nat number_of_ace_cards))
    as (high & Hh & -> & Hlow & Hfirst).
  replace (Z.of_nat (Z.to_nat number_of_ace_cards)) with (Z.max 0 number_of_ace_cards) in * by lia.
  split; [exists high; split; [exact Hh | reflexivity]|].
  split; [lia|]. split.
  - intros H. rewrite (Hlow H). lia.
  - intros H1 H2. assert (1 <= high) by (apply Hfirst; lia). lia.
Qed.

Lemma calculate_optimal_ace_sum_bounds_witness :
  calculate_optimal_ace_sum 3 15 21 = 3.
Proof.
  destruct (calculate_optimal_ace_sum_bounds 3 15 21) as (_ & _ & H & _).
  apply H. lia.
Defined.

Lemma length_hand_split (hand : list Card) :
  Z.of_nat (length hand) = num_aces hand + Z.of_nat (length (non_ace_numbers hand)).
Proof.
  unfold num_aces, ace_cards, non_ace_numbers. rewrite length_map.
  induction hand as [|card hand IH]; [reflexivity|].
  rewrite !filter_cons.
  destruct (decide (number card = 1)), (decide (number card <> 1));
    cbn [length]; try contradiction; lia.
Qed.

(** Every card counts at least 1 and a hand of [k] cards at most [10 * k + 1]:
    the evaluated sum lies between these, and only the empty hand evaluates
    to 0. *)
Theorem evaluate_bounds (hand : list Card) :
  Z.of_nat (length hand) <= evaluate hand <= 10 * Z.of_nat (length hand) + 1 /\
  (evaluate hand = 0 <-> hand = []).
Proof.
  assert (Hb : Z.of_nat (length hand) <= evaluate hand <= 10 * Z.of_nat (length hand) + 1).
  { rewrite evaluate_closed, length_hand_split. unfold closed_form, non_ace_sum.
    pose proof (sum_clip_bounds (non_ace_numbers hand)).
    pose proof (num_aces_nonneg hand).
    destruct (Z.leb_spec 1 (num_aces hand)),
      (Z.leb_spec (_calculate_no_aces (non_ace_numbers hand)) 10); cbn [andb]; lia. }
  split; [exact Hb|]. split.
  - intros H0. destruct hand; [reflexivity|]. cbn [length] in Hb. lia.
  - intros ->. reflexivity.
Qed.

Lemma num_aces_snoc (hand : list Card) (card : Card) :
  num_aces (hand ++ [card]) = num_aces hand + (if decide (number card = 1) then 1 else 0).
Proof.
  unfold num_aces, ace_cards. rewrite filter_app, length_app, filter_cons.
  destruct (decide (number card = 1)); cbn [filter length]; rewrite ?filter_nil; cbn [length]; lia.
Qed.

Lemma non_ace_sum_snoc (hand : list Card) (card : Card) :
  non_ace_sum (hand ++ [card]) =
  non_ace_sum hand + (if decide (number card = 1) then 0 else clip 1 _MAX_ROYALTY (number card)).
Proof.
  unfold non_ace_sum, _calculate_no_aces, non_ace_numbers.
  rewrite filter_app, !map_app, sum_Z_app, filter_cons.
  destruct (decide (number card <> 1)), (decide (number card = 1));
    try contradiction; try tauto; rewrite ?filter_nil; cbn; lia.
Qed.

Lemma evaluate_snoc_bounds (hand : list Card) (card : Card) :
  evaluate hand - 9 <= evaluate (hand ++ [card]) <= evaluate hand + 11 /\
  (evaluate hand <= 16 -> evaluate (hand ++ [card]) <= 26).
Proof.
  rewrite !evaluate_closed, num_aces_snoc, non_ace_sum_snoc. unfold closed_form.
  pose proof (num_aces_nonneg hand). pose proof (non_ace_sum_nonneg hand).
  pose proof (clip_bounds (number card)).
  destruct (decide (number card = 1));
    repeat match goal with
           | |- context [?a <=? ?b] => destruct (Z.leb_spec a b)
           end; cbn [andb]; lia.
Qed.

(** One more card changes the evaluated sum by at least -9 (an Ace that
    counted 11 falls back to 1) and at most 11; a hand that evaluates to 16
    or less evaluates to 26 or less with one more card. *)
Theorem evaluate_after_hit (hand : list Card) (card : Card) :
  evaluate hand - 9 <= evaluate (hand ++ [card]) <= evaluate hand + 11 /\
  (evaluate hand <= 16 -> evaluate (hand ++ [card]) <= 26).
Proof. apply evaluate_snoc_bounds. Qed.

Lemma evaluate_after_hit_witness :
  evaluate ([mkCard "Hearts" 10; mkCard "Clubs" 6] ++ [mkCard "Spades" 13]) <= 26.
Proof.
  destruct (evaluate_after_hit [mkCard "Hearts" 10; mkCard "Clubs" 6] (mkCard "Spades" 13))
    as (_ & H).
  apply H. vm_compute. discriminate.
Defined.

(** ** Outcomes *)

(** [_compute_winner] answers with one of its three strings, and each is
    given in exactly these cases: the player wins with 21 against a dealer
    without 21, or with more than the dealer and less than 21; the dealer
    wins with 21 against a player without 21, or with less than 21 and more
    than the player, or when the player is above 21; every other pair has no
    winner, among them every dealer above 21 against a player below 21. *)
Theorem _compute_winner_cases (dealer_sum player_sum : Z) :
  (_compute_winner dealer_sum player_sum = "PLAYER" <->
     (player_sum = 21 /\ dealer_sum <> 21) \/ (dealer_sum < player_sum /\ player_sum < 21)) /\
  (_compute_winner dealer_sum player_sum = "DEALER" <->
     (dealer_sum = 21 /\ player_sum <> 21) \/
     (dealer_sum < 21 /\ player_sum < dealer_sum) \/
     21 < player_sum) /\
  (_compute_winner dealer_sum player_sum = "NONE" <->
     (dealer_sum = player_sum /\ player_sum <= 21) \/
     (21 < dealer_sum /\ player_sum < 21)) /\
  (_compute_winner dealer_sum player_sum = "PLAYER" \/
   _compute_winner dealer_sum player_sum = "DEALER" \/
   _compute_winner dealer_sum player_sum = "NONE").
Proof.
  unfold _compute_winner, _WINNING_SUM. rewrite !Z.gtb_ltb.
  destruct (Z.eqb_spec dealer_sum 21), (Z.eqb_spec player_sum 21),
    (Z.ltb_spec dealer_sum 21), (Z.ltb_spec player_sum dealer_sum),
    (Z.ltb_spec 21 player_sum), (Z.ltb_spec dealer_sum player_sum),
    (Z.ltb_spec player_sum 21); cbn [andb];
    (repeat split; intros; try discriminate; try lia;
     try (left; reflexivity); try (right; left; reflexivity); try (right; right; reflexivity)).
Qed.

(** [compute_winners] gives one outcome per player, in the order of the
    players: the outcome of player [i] is [_compute_winner] of the dealer's
    sum and that player's sum, whatever the other hands hold; a player whose
    hand evaluates above 21 loses, whatever the dealer has. *)
Theorem compute_winners_per_player (self : Blackjack) :
  length (compute_winners self) = length (_player_stacks self) /\
  (forall (i : nat) (hand : list Card),
     _player_stacks self !! i = Some hand ->
     compute_winners self !! i =
       Some (_compute_winner (_calculate_stack_sum (_dealer_stack self))
               (_calculate_stack_sum hand)) /\
     (21 < _calculate_stack_sum hand -> compute_winners self !! i = Some "DEALER")) /\
  (forall i : nat, _player_stacks self !! i = None -> compute_winners self !! i = None).
Proof.
  unfold compute_winners, _get_sums. split; [|split].
  - rewrite !length_map. reflexivity.
  - intros i hand Hi.
    assert (Hw : map (_compute_winner (_calculate_stack_sum (_dealer_stack self)))
                   (map _calculate_stack_sum (_player_stacks self)) !! i =
                 Some (_compute_winner (_calculate_stack_sum (_dealer_stack self))
                         (_calculate_stack_sum hand))).
    { change (@map) with (@fmap list _). rewrite !list_lookup_fmap, Hi. reflexivity. }
    split; [exact Hw|]. intros Hbust. rewrite Hw. f_equal.
    unfold _compute_winner, _WINNING_SUM. rewrite !Z.gtb_ltb.
    set (d := _calculate_stack_sum (_dealer_stack self)).
    set (p := _calculate_stack_sum hand) in *.
    destruct (Z.eqb_spec d 21), (Z.eqb_spec p 21), (Z.ltb_spec d 21),
      (Z.ltb_spec p d), (Z.ltb_spec 21 p); cbn [andb]; (reflexivity || lia).
  - intros i Hi. change (@map) with (@fmap list _).
    rewrite !list_lookup_fmap, Hi. reflexivity.
Qed.

Lemma compute_winners_per_player_witness :
  compute_winners
    (mkBlackjack 1 2 [] [mkCard "Hearts" 10; mkCard "Clubs" 9]
       [[mkCard "Spades" 10; mkCard "Spades" 5; mkCard "Hearts" 8]; [mkCard "Clubs" 10]]
       [true; true] 2 []) !! 0%nat = Some "DEALER"%string.
Proof.
  destruct (compute_winners_per_player
    (mkBlackjack 1 2 [] [mkCard "Hearts" 10; mkCard "Clubs" 9]
       [[mkCard "Spades" 10; mkCard "Spades" 5; mkCard "Hearts" 8]; [mkCard "Clubs" 10]]
       [true; true] 2 [])) as (_ & H & _).
  destruct (H 0%nat [mkCard "Spades" 10; mkCard "Spades" 5; mkCard "Hearts" 8] eq_refl)
    as [_ Hbust].
  apply Hbust. vm_compute. reflexivity.
Defined.

(** ** The dealer's loop *)

Lemma dealer_loop_run (fuel : nat) (self : Blackjack) :
  (length (_card_stack self) < fuel)%nat ->
  exists (drawn : list Card) (self' : Blackjack) (r : result (option unit)),
    dealer_loop fuel self = (r, self') /\
    _card_stack self = _card_stack self' ++ reverse drawn /\
    _dealer_stack self' = _dealer_stack self ++ drawn /\
    _player_stacks self' = _player_stacks self /\
    _player_dones self' = _player_dones self /\
    (forall k, (k < length drawn)%nat ->
       _calculate_stack_sum (_dealer_stack self ++ take k drawn) < 17) /\
    ((r = Ok (Some tt) /\ 17 <= _calculate_stack_sum (_dealer_stack self') /\
      (drawn = [] \/ _calculate_stack_sum (_dealer_stack self') <= 26)) \/
     (r = Raise IndexError /\ _card_stack self' = [] /\
      _calculate_stack_sum (_dealer_stack self') < 17)).
Proof.
  revert self. induction fuel as [|fuel IH]; intros self Hfuel; [lia|].
  cbn [dealer_loop]. unfold bind at 1.
  destruct (Z.lt_ge_cases (_calculate_stack_sum (_dealer_stack self)) 17) as [Hlow|Hhigh].
  - destruct (list_snoc_cases (_card_stack self)) as [E | (rest & card & E)].
    + rewrite (dealer_draw_empty _ _ Hlow E).
      exists [], self. eexists. split; [reflexivity|].
      rewrite !app_nil_r. repeat split; try reflexivity.
      * intros k Hk. cbn in Hk. lia.
      * right. repeat split; assumption.
    + rewrite (dealer_draw_hit _ _ rest card Hlow E).
      match goal with |- context [dealer_loop fuel ?s1] => set (self1 := s1) end.
      destruct (IH self1) as (drawn & self' & r & Hrun & Hdeck & Hdealer & Hp & Hd & Hpre & Hend).
      { subst self1. cbn. rewrite E, length_app in Hfuel. cbn in Hfuel. lia. }
      subst self1. cbn [_card_stack _dealer_stack _player_stacks _player_dones] in *.
      exists (card :: drawn), self', r. split; [exact Hrun|].
      split; [rewrite E, Hdeck, reverse_cons, <- app_assoc; reflexivity|].
      split; [rewrite Hdealer, <- app_assoc; reflexivity|].
      split; [exact Hp|]. split; [exact Hd|]. split.
      * intros k Hk. destruct k as [|k]; cbn [take].
        -- rewrite app_nil_r. exact Hlow.
        -- cbn [length] in Hk. specialize (Hpre k ltac:(lia)).
           rewrite <- app_assoc in Hpre. exact Hpre.
      * destruct Hend as [(-> & H17 & Hcap) | Hfail]; [left | right; exact Hfail].
        split; [reflexivity|]. split; [exact H17|]. right.
        destruct Hcap as [-> | Hcap]; [|exact Hcap].
        rewrite Hdealer, app_nil_r.
        apply (evaluate_snoc_bounds (_dealer_stack self) card).
        unfold evaluate. lia.
  - rewrite (dealer_draw_stand _ _ Hhigh).
    exists []. eexists. eexists. split; [reflexivity|]. cbn.
    rewrite !app_nil_r. repeat split; try reflexivity.
    + intros k Hk. lia.
    + left. repeat split; [exact Hhigh | left; reflexivity].
Qed.

(** The dealer's loop ends: more calls than the deck has cards are never
    needed.  It moves cards from the top of the deck to the dealer's hand,
    one at a time, as long as the hand evaluates below 17, and touches no
    player.  It ends with the dealer at 17 or more, and at 26 or less if a
    card was drawn, or it raises [IndexError] with the deck empty and the
    dealer below 17. *)
Theorem dealer_loop_ends (fuel : nat) (self : Blackjack) :
  (length (_card_stack self) < fuel)%nat ->
  exists (drawn : list Card) (self' : Blackjack) (r : result (option unit)),
    dealer_loop fuel self = (r, self') /\
    _card_stack self = _card_stack self' ++ reverse drawn /\
    _dealer_stack self' = _dealer_stack self ++ drawn /\
    _player_stacks self' = _player_stacks self /\
    _player_dones self' = _player_dones self /\
    (forall k, (k < length drawn)%nat ->
       _calculate_stack_sum (_dealer_stack self ++ take k drawn) < 17) /\
    ((r = Ok (Some tt) /\ 17 <= _calculate_stack_sum (_dealer_stack self') /\
      (drawn = [] \/ _calculate_stack_sum (_dealer_stack self') <= 26)) \/
     (r = Raise IndexError /\ _card_stack self' = [] /\
      _calculate_stack_sum (_dealer_stack self') < 17)).
Proof. intros Hfuel. exact (dealer_loop_run fuel self Hfuel). Qed.

Lemma dealer_loop_ends_witness :
  exists (drawn : list Card) (self' : Blackjack) (r : result (option unit)),
    dealer_loop 3 (mkBlackjack 1 1 [mkCard "Hearts" 4; mkCard "Clubs" 9]
                     [mkCard "Spades" 10; mkCard "Hearts" 6] [[]] [true] 1 []) = (r, self') /\
    _dealer_stack self' = [mkCard "Spades" 10; mkCard "Hearts" 6] ++ drawn.
Proof.
  destruct (dealer_loop_ends 3
              (mkBlackjack 1 1 [mkCard "Hearts" 4; mkCard "Clubs" 9]
                 [mkCard "Spades" 10; mkCard "Hearts" 6] [[]] [true] 1 []))
    as (drawn & self' & r & Hrun & _ & Hdealer & _).
  { cbn. lia. }
  exists drawn, self', r. split; [exact Hrun | exact Hdealer].
Defined.

(** ** The initial deal *)

Lemma alter_lookup_insert {A} (f : A -> A) (l : list A) (i : nat) (x : A) :
  l !! i = Some x -> alter f i l = <[i := f x]> l.
Proof.
  intros Hx. pose proof (lookup_lt_Some _ _ _ Hx) as Hlt.
  apply list_eq. intros j. destruct (decide (i = j)) as [<-|Hne].
  - rewrite list_lookup_alter_eq, Hx, list_lookup_insert_eq by exact Hlt. reflexivity.
  - rewrite list_lookup_alter_ne, list_lookup_insert_ne by exact Hne. reflexivity.
Qed.

Lemma range_2 : range 2 = [0; 1].
Proof. reflexivity. Qed.

(** The inner loop of [initial_deal]: two hits for one player. *)
Lemma deal_two (player_idx : Z) (i : nat) (self : Blackjack) (rest stack : list Card)
    (c1 c2 : Card) :
  py_index (length (_player_stacks self)) player_idx = Some i ->
  _player_stacks self !! i = Some stack ->
  _card_stack self = rest ++ [c2; c1] ->
  for_ (range 2) (fun _ => _ <- player_draw player_idx ;; ret tt) self =
    (Ok tt,
     mkBlackjack (_num_decks self) (_num_players self) rest (_dealer_stack self)
       (<[i := stack ++ [c1; c2]]> (_player_stacks self))
       (_player_dones self) (_current_turn self) (stdout self)).
Proof.
  intros Hi Hstack Hdeck. rewrite range_2. cbn [for_]. unfold bind.
  rewrite (player_draw_ok player_idx self (rest ++ [c2]) c1 i);
    [|rewrite Hdeck, <- app_assoc; reflexivity | exact Hi].
  cbn [ret].
  match goal with |- context [player_draw player_idx ?s1] => set (self1 := s1) end.
  rewrite (player_draw_ok player_idx self1 rest c2 i);
    [|reflexivity | subst self1; cbn; rewrite length_alter; exact Hi].
  subst self1. cbn. do 2 f_equal.
  rewrite (alter_lookup_insert _ _ _ _ Hstack).
  pose proof (lookup_lt_Some _ _ _ Hstack) as Hlt.
  rewrite (alter_lookup_insert _ _ i (stack ++ [c1]))
    by (apply list_lookup_insert_eq; exact Hlt).
  rewrite list_insert_insert_eq, <- app_assoc. reflexivity.
Qed.

(** The outer loop of [initial_deal], over the players from [length pre] on. *)
Lemma deal_players (mid : list (list Card)) :
  forall (hands : list (Card * Card)) (pre post : list (list Card)) (rest : list Card)
         (self : Blackjack),
    length mid = length hands ->
    _player_stacks self = pre ++ mid ++ post ->
    _card_stack self = rest ++ reverse (flat_map two_cards hands) ->
    for_ (map Z.of_nat (seq (length pre) (length mid)))
      (fun player_idx => for_ (range 2) (fun _ => _ <- player_draw player_idx ;; ret tt)) self =
      (Ok tt,
       mkBlackjack (_num_decks self) (_num_players self) rest (_dealer_stack self)
         (pre ++ zip_with (fun stack hand => stack ++ two_cards hand) mid hands ++ post)
         (_player_dones self) (_current_turn self) (stdout self)).
Proof.
  induction mid as [|stack mid IH]; intros hands pre post rest self Hlen Hstacks Hdeck.
  - destruct hands; [|discriminate]. cbn in *. rewrite app_nil_r in Hdeck.
    destruct self. cbn in *. subst. reflexivity.
  - destruct hands as [|[c1 c2] hands]; [discriminate|]. cbn [length] in Hlen.
    cbn [length seq map for_]. unfold bind at 1.
    assert (Hi : py_index (length (_player_stacks self)) (Z.of_nat (length pre)) = Some (length pre)).
    { destruct (py_index_Some (length (_player_stacks self)) (Z.of_nat (length pre)))
        as (k & Hk & _ & Hpos).
      - rewrite Hstacks, !length_app. cbn [length]. lia.
      - destruct (Z.ltb_spec (Z.of_nat (length pre)) 0); [lia|].
        rewrite Hk. f_equal. lia. }
    assert (Hlook : _player_stacks self !! length pre = Some stack).
    { rewrite Hstacks. rewrite lookup_app_r by lia. rewrite Nat.sub_diag. reflexivity. }
    rewrite (deal_two _ _ self (rest ++ reverse (flat_map two_cards hands)) stack c1 c2 Hi Hlook).
    2:{ rewrite Hdeck. cbn [flat_map two_cards fst snd app].
        rewrite !reverse_cons, <- !app_assoc. reflexivity. }
    match goal with |- context [for_ _ _ ?s1] => set (self1 := s1) end.
    specialize (IH hands (pre ++ [stack ++ [c1; c2]]) post rest self1).
    rewrite length_app, Nat.add_1_r in IH.
    rewrite IH.
    + subst self1. cbn. rewrite <- !app_assoc. reflexivity.
    + lia.
    + subst self1. cbn. rewrite Hstacks.
      rewrite insert_app_r_alt by lia. rewrite Nat.sub_diag. cbn.
      rewrite <- app_assoc. reflexivity.
    + reflexivity.
Qed.

Lemma evaluate_single (card : Card) : _calculate_stack_sum [card] <= 11.
Proof.
  change (evaluate [card] <= 11). rewrite evaluate_closed.
  change [card] with ([] ++ [card]). rewrite num_aces_snoc, non_ace_sum_snoc.
  unfold closed_form. change (num_aces []) with 0. change (non_ace_sum []) with 0.
  pose proof (clip_bounds (number card)).
  destruct (decide (number card = 1));
    repeat match goal with
           | |- context [?a <=? ?b] => destruct (Z.leb_spec a b)
           end; cbn [andb]; lia.
Qed.

Lemma well_formed_range (self : Blackjack) :
  well_formed self ->
  range (_num_players self) = map Z.of_nat (seq 0 (length (_player_stacks self))).
Proof.
  unfold well_formed, range. intros H. f_equal. f_equal. lia.
Qed.

(** The initial deal on a dealer without cards, card by card. *)
Lemma initial_deal_deals (self : Blackjack) (rest : list Card) (d1 d2 : Card)
    (hands : list (Card * Card)) :
  well_formed self ->
  _dealer_stack self = [] ->
  length hands = length (_player_stacks self) ->
  _card_stack self = rest ++ reverse (d1 :: d2 :: flat_map two_cards hands) ->
  initial_deal self =
    (Ok tt,
     mkBlackjack (_num_decks self) (_num_players self) rest [d1; d2]
       (zip_with (fun stack hand => stack ++ two_cards hand) (_player_stacks self) hands)
       (_player_dones self) (_current_turn self) (stdout self ++ [DEALER_HIT d1])).
Proof.
  intros Hwf Hdealer Hlen Hdeck. unfold initial_deal. unfold bind at 1.
  rewrite (dealer_draw_hit false self (rest ++ reverse (flat_map two_cards hands) ++ [d2]) d1);
    [|rewrite Hdealer; reflexivity
     |rewrite Hdeck, !reverse_cons, <- !app_assoc; reflexivity].
  unfold bind at 1.
  match goal with |- context [dealer_draw true ?s1] => set (self1 := s1) end.
  rewrite (dealer_draw_hit true self1 (rest ++ reverse (flat_map two_cards hands)) d2);
    [|subst self1; cbn [_dealer_stack]; rewrite Hdealer; cbn [app];
      pose proof (evaluate_single d1); lia
     |subst self1; cbn [_card_stack]; rewrite <- app_assoc; reflexivity].
  subst self1. cbn [_num_decks _num_players _dealer_stack _player_stacks _player_dones
                    _current_turn stdout].
  unfold bind at 1, get at 1.
  match goal with |- context [for_ _ _ ?s2] => set (self2 := s2) end.
  assert (Hwf2 : well_formed self2) by exact Hwf.
  rewrite (well_formed_range self2 Hwf2).
  pose proof (deal_players (_player_stacks self) hands [] [] rest self2) as Hloop.
  cbn [length app] in Hloop. rewrite !app_nil_r in Hloop.
  subst self2. cbn [_num_decks _num_players _dealer_stack _player_stacks _player_dones
                    _current_turn stdout _card_stack] in *.
  rewrite Hloop; [|symmetry; exact Hlen | reflexivity | reflexivity].
  rewrite Hdealer. reflexivity.
Qed.

(** On a dealer without cards and a deck that holds enough of them,
    [initial_deal] deals in this order from the top of the deck: two cards to
    the dealer (only the first is announced), then two cards to each player,
    player by player.  Each player's hand grows by exactly its two cards, the
    rest of the deck stays, and nothing else changes. *)
Theorem initial_deal_fresh (self : Blackjack) (rest : list Card) (d1 d2 : Card)
    (hands : list (Card * Card)) :
  well_formed self ->
  _dealer_stack self = [] ->
  length hands = length (_player_stacks self) ->
  _card_stack self = rest ++ reverse (d1 :: d2 :: flat_map two_cards hands) ->
  initial_deal self =
    (Ok tt,
     mkBlackjack (_num_decks self) (_num_players self) rest [d1; d2]
       (zip_with (fun stack hand => stack ++ two_cards hand) (_player_stacks self) hands)
       (_player_dones self) (_current_turn self) (stdout self ++ [DEALER_HIT d1])).
Proof.
  intros Hwf Hdealer Hlen Hdeck.
  exact (initial_deal_deals self rest d1 d2 hands Hwf Hdealer Hlen Hdeck).
Qed.

Lemma initial_deal_fresh_witness :
  initial_deal
    (mkBlackjack 1 1
       [mkCard "Hearts" 2; mkCard "Clubs" 9; mkCard "Spades" 9; mkCard "Hearts" 6;
        mkCard "Diamonds" 10] [] [[]] [false] 0 []) =
  (Ok tt,
   mkBlackjack 1 1 [mkCard "Hearts" 2] [mkCard "Diamonds" 10; mkCard "Hearts" 6]
     [[mkCard "Spades" 9; mkCard "Clubs" 9]] [false] 0 [DEALER_HIT (mkCard "Diamonds" 10)]).
Proof.
  apply (initial_deal_fresh
           (mkBlackjack 1 1
              [mkCard "Hearts" 2; mkCard "Clubs" 9; mkCard "Spades" 9; mkCard "Hearts" 6;
               mkCard "Diamonds" 10] [] [[]] [false] 0 [])
           [mkCard "Hearts" 2] (mkCard "Diamonds" 10) (mkCard "Hearts" 6)
           [(mkCard "Spades" 9, mkCard "Clubs" 9)]); reflexivity.
Defined.

(** The loop over the players runs out of cards when the deck has fewer than
    two for each of them. *)
Lemma deal_players_short (idxs : list Z) :
  forall self : Blackjack,
    (forall idx, In idx idxs -> 0 <= idx < Z.of_nat (length (_player_stacks self))) ->
    (length (_card_stack self) < 2 * length idxs)%nat ->
    exists self',
      for_ idxs
        (fun player_idx => for_ (range 2) (fun _ => _ <- player_draw player_idx ;; ret tt))
        self = (Raise IndexError, self') /\
      _card_stack self' = [].
Proof.
  induction idxs as [|idx idxs IH]; intros self Hvalid Hshort; [cbn in Hshort; lia|].
  cbn [for_]. unfold bind at 1.
  destruct (py_index_Some (length (_player_stacks self)) idx) as (i & Hi & Hlt & _).
  { specialize (Hvalid idx (or_introl eq_refl)). lia. }
  destruct (lookup_lt_is_Some_2 (_player_stacks self) i Hlt) as [stack Hstack].
  destruct (list_snoc_cases (_card_stack self)) as [E | (rest1 & c1 & E)].
  - rewrite range_2. cbn [for_]. unfold bind at 1 2.
    rewrite (player_draw_empty _ _ E). exists self. split; [reflexivity | exact E].
  - destruct (list_snoc_cases rest1) as [-> | (rest & c2 & ->)].
    + rewrite range_2. cbn [for_]. unfold bind at 1 2.
      rewrite (player_draw_ok idx self [] c1 i E Hi). cbn [ret].
      unfold bind at 1 2. rewrite player_draw_empty by reflexivity.
      eexists. split; reflexivity.
    + rewrite (deal_two idx i self rest stack c1 c2 Hi Hstack)
        by (rewrite E, <- app_assoc; reflexivity).
      match goal with |- context [for_ idxs _ ?s1] => set (self1 := s1) end.
      destruct (IH self1) as (self' & Hrun & Hempty).
      * intros idx' Hin. subst self1. cbn [_player_stacks]. rewrite length_insert.
        apply Hvalid. right. exact Hin.
      * subst self1. cbn [_card_stack]. rewrite E, !length_app in Hshort.
        cbn [length] in Hshort. lia.
      * exists self'. split; [exact Hrun | exact Hempty].
Qed.

(** A list of [2 * n] cards is the cards of [n] first deals. *)
Lemma two_cards_split (n : nat) :
  forall l : list Card, length l = (2 * n)%nat ->
    exists hands, length hands = n /\ l = flat_map two_cards hands.
Proof.
  induction n as [|n IH]; intros l Hl.
  - exists []. destruct l; [split; reflexivity | discriminate].
  - destruct l as [|c1 [|c2 l]]; cbn [length] in Hl; try lia.
    destruct (IH l ltac:(lia)) as (hands & Hlen & ->).
    exists ((c1, c2) :: hands). split; [cbn [length]; lia | reflexivity].
Qed.

(** A deck of at least [2 + 2 * n] cards, seen from its top. *)
Lemma deck_top_split (n : nat) (deck : list Card) :
  (2 + 2 * n <= length deck)%nat ->
  exists rest d1 d2 hands,
    length hands = n /\
    deck = rest ++ reverse (d1 :: d2 :: flat_map two_cards hands) /\
    (length rest + 2 + 2 * n = length deck)%nat.
Proof.
  intros Hlen.
  assert (Htake : length (take (2 + 2 * n) (reverse deck)) = (2 + 2 * n)%nat).
  { rewrite length_take, length_reverse. lia. }
  destruct (take (2 + 2 * n) (reverse deck)) as [|d1 [|d2 top]] eqn:Etop;
    cbn [length] in Htake; try lia.
  destruct (two_cards_split n top ltac:(lia)) as (hands & Hhands & ->).
  exists (reverse (drop (2 + 2 * n) (reverse deck))), d1, d2, hands.
  split; [exact Hhands|]. split.
  - rewrite <- Etop, <- reverse_app, take_drop, reverse_involutive. reflexivity.
  - rewrite length_reverse, length_drop, length_reverse. lia.
Qed.

Lemma initial_deal_outcome (self : Blackjack) :
  well_formed self ->
  _dealer_stack self = [] ->
  let n := length (_player_stacks self) in
  ((2 + 2 * n <= length (_card_stack self))%nat ->
   exists self',
     initial_deal self = (Ok tt, self') /\
     (length (_card_stack self') + 2 + 2 * n = length (_card_stack self))%nat /\
     length (_dealer_stack self') = 2%nat /\
     Forall2 (fun stack stack' => length stack' = (length stack + 2)%nat)
       (_player_stacks self) (_player_stacks self')) /\
  ((length (_card_stack self) < 2 + 2 * n)%nat ->
   exists self',
     initial_deal self = (Raise IndexError, self') /\ _card_stack self' = []).
Proof.
  intros Hwf Hdealer n. split.
  - intros Hlen.
    destruct (deck_top_split n (_card_stack self) Hlen)
      as (rest & d1 & d2 & hands & Hhands & Hdeck & Hrest).
    eexists. split; [apply (initial_deal_deals self rest d1 d2 hands Hwf Hdealer Hhands Hdeck)|].
    cbn [_card_stack _dealer_stack _player_stacks]. split; [exact Hrest|].
    split; [reflexivity|].
    subst n. clear - Hhands. revert hands Hhands.
    induction (_player_stacks self) as [|stack stacks IH]; intros hands Hhands;
      destruct hands as [|hand hands]; try discriminate; cbn [zip_with]; constructor.
    + rewrite length_app. reflexivity.
    + apply IH. cbn [length] in Hhands. lia.
  - intros Hshort. unfold initial_deal. unfold bind at 1.
    assert (H0 : _calculate_stack_sum (_dealer_stack self) < 17)
      by (rewrite Hdealer; reflexivity).
    destruct (list_snoc_cases (_card_stack self)) as [E | (rest1 & d1 & E)].
    { rewrite (dealer_draw_empty _ _ H0 E). exists self. split; [reflexivity | exact E]. }
    rewrite (dealer_draw_hit false self rest1 d1 H0 E). unfold bind at 1.
    match goal with |- context [dealer_draw true ?s1] => set (self1 := s1) end.
    assert (H1 : _calculate_stack_sum (_dealer_stack self1) < 17).
    { subst self1. cbn [_dealer_stack]. rewrite Hdealer. cbn [app].
      pose proof (evaluate_single d1). lia. }
    destruct (list_snoc_cases rest1) as [-> | (rest & d2 & ->)].
    { rewrite (dealer_draw_empty true self1 H1) by reflexivity.
      exists self1. split; reflexivity. }
    rewrite (dealer_draw_hit true self1 rest d2 H1) by reflexivity.
    unfold bind at 1, get at 1.
    match goal with |- context [for_ _ _ ?s2] => set (self2 := s2) end.
    assert (Hwf2 : well_formed self2) by exact Hwf.
    rewrite (well_formed_range self2 Hwf2).
    apply deal_players_short.
    + intros idx Hin. apply in_map_iff in Hin as (k & <- & Hk). apply in_seq in Hk. lia.
    + rewrite length_map, length_seq. subst self2 self1. cbn [_card_stack _player_stacks].
      rewrite E, !length_app in Hshort. cbn [length] in Hshort. subst n. lia.
Qed.

(** On a dealer without cards, [initial_deal] returns exactly when the deck
    holds two cards for the dealer and two for each player: it then takes
    that many cards from the deck, leaves the dealer with two cards and every
    player with two more.  On a smaller deck it raises [IndexError] once the
    deck is empty. *)
Theorem initial_deal_enough_cards (self : Blackjack) :
  well_formed self ->
  _dealer_stack self = [] ->
  let n := length (_player_stacks self) in
  ((2 + 2 * n <= length (_card_stack self))%nat ->
   exists self',
     initial_deal self = (Ok tt, self') /\
     (length (_card_stack self') + 2 + 2 * n = length (_card_stack self))%nat /\
     length (_dealer_stack self') = 2%nat /\
     Forall2 (fun stack stack' => length stack' = (length stack + 2)%nat)
       (_player_stacks self) (_player_stacks self')) /\
  ((length (_card_stack self) < 2 + 2 * n)%nat ->
   exists self',
     initial_deal self = (Raise IndexError, self') /\ _card_stack self' = []).
Proof. intros Hwf Hdealer. exact (initial_deal_outcome self Hwf Hdealer). Qed.

Lemma initial_deal_enough_cards_witness :
  exists self',
    initial_deal (mkBlackjack 1 2 [mkCard "Hearts" 2; mkCard "Clubs" 9; mkCard "Spades" 9]
                    [] [[]; []] [false; false] 0 []) = (Raise IndexError, self') /\
    _card_stack self' = [].
Proof.
  destruct (initial_deal_enough_cards
              (mkBlackjack 1 2 [mkCard "Hearts" 2; mkCard "Clubs" 9; mkCard "Spades" 9]
                 [] [[]; []] [false; false] 0 [])) as (_ & H).
  - reflexivity.
  - reflexivity.
  - apply H. cbn. lia.
Defined.

(** A game as [__init__] makes it has a dealer without cards and one empty
    hand and one unset done flag per player; dealing it out returns exactly
    when its decks hold two cards for the dealer and two for each player
    ([2 + 2 * numPlayers <= 52 * numDecks], so one deck serves up to 25
    players), and raises [IndexError] otherwise. *)
Theorem __init___then_initial_deal (shuffle : list Card -> list Card)
    (num_decks num_players : Z) :
  (forall l, Permutation (shuffle l) l) ->
  exists self,
    __init__ shuffle num_decks num_players = Ok self /\
    well_formed self /\
    _dealer_stack self = [] /\
    Forall (fun stack => stack = []) (_player_stacks self) /\
    Forall (fun done => done = false) (_player_dones self) /\
    length (_player_dones self) = length (_player_stacks self) /\
    (2 + 2 * Z.max 0 num_players <= 52 * Z.max 0 num_decks ->
     fst (initial_deal self) = Ok tt) /\
    (52 * Z.max 0 num_decks < 2 + 2 * Z.max 0 num_players ->
     fst (initial_deal self) = Raise IndexError).
Proof.
  intros Hshuffle. eexists. split; [apply __init___value|].
  match goal with |- well_formed ?s /\ _ => set (self := s) end.
  assert (Hwf : well_formed self).
  { unfold well_formed. cbn. rewrite length_replicate. lia. }
  assert (Hdeck : length (_card_stack self) = (Z.to_nat num_decks * 52)%nat).
  { cbn. rewrite (Permutation_length (Hshuffle _)), length_concat_replicate. reflexivity. }
  assert (Hn : length (_player_stacks self) = Z.to_nat num_players).
  { cbn. apply length_replicate. }
  destruct (initial_deal_outcome self Hwf eq_refl) as [Hok Hfail].
  rewrite Hdeck, Hn in Hok, Hfail.
  split; [exact Hwf|]. split; [reflexivity|].
  split; [cbn; apply Forall_replicate; reflexivity|].
  split; [cbn; apply Forall_replicate; reflexivity|].
  split; [cbn; rewrite !length_replicate; reflexivity|]. split.
  - intros H. destruct Hok as (self' & -> & _); [lia | reflexivity].
  - intros H. destruct Hfail as (self' & -> & _); [lia | reflexivity].
Qed.

Lemma __init___then_initial_deal_witness :
  exists self,
    __init__ reverse 1 26 = Ok self /\ fst (initial_deal self) = Raise IndexError.
Proof.
  destruct (__init___then_initial_deal reverse 1 26 reverse_Permutation)
    as (self & Hinit & _ & _ & _ & _ & _ & _ & Hfail).
  exists self. split; [exact Hinit|]. apply Hfail. lia.
Defined.

(** ** The cards of the deck *)

Lemma count_occ_concat_replicate (n : nat) (l : list Card) (card : Card) :
  count_occ Card_eq_dec (concat (replicate n l)) card = (n * count_occ Card_eq_dec l card)%nat.
Proof.
  induction n as [|n IH]; cbn [replicate concat]; [reflexivity|].
  rewrite count_occ_app, IH. lia.
Qed.

Lemma num_aces_app (h1 h2 : list Card) : num_aces (h1 ++ h2) = num_aces h1 + num_aces h2.
Proof.
  unfold num_aces, ace_cards. rewrite filter_app, length_app. lia.
Qed.

Lemma num_aces_concat_replicate (n : nat) (l : list Card) :
  num_aces (concat (replicate n l)) = Z.of_nat n * num_aces l.
Proof.
  induction n as [|n IH]; cbn [replicate concat]; [reflexivity|].
  rewrite num_aces_app, IH. lia.
Qed.

Lemma valid_one_deck : Forall valid_card one_deck.
Proof.
  apply List.Forall_forall. intros card Hin. apply in_one_deck in Hin as [_ Hn].
  unfold valid_card, _LOWEST_CARD, _HIGHEST_CARD. lia.
Qed.

(** The stack [_create_stack] returns holds every card of a deck (a suit of
    [_SUITS] with a rank from 1 to 13) exactly [num_decks] times and no other
    card, so all its cards are valid and [4 * num_decks] of them are Aces;
    below one deck it holds nothing. *)
Theorem _create_stack_counts (shuffle : list Card -> list Card) (num_decks : Z) :
  (forall l, Permutation (shuffle l) l) ->
  exists deck,
    _create_stack shuffle num_decks = Ok deck /\
    (forall card,
       In (suit card) _SUITS /\ 1 <= number card <= 13 ->
       count_occ Card_eq_dec deck card = Z.to_nat num_decks) /\
    (forall card,
       ~ (In (suit card) _SUITS /\ 1 <= number card <= 13) ->
       count_occ Card_eq_dec deck card = 0%nat) /\
    Forall valid_card deck /\
    num_aces deck = 4 * Z.max 0 num_decks.
Proof.
  intros Hshuffle. eexists. split; [apply _create_stack_decks|].
  pose proof (Hshuffle (concat (replicate (Z.to_nat num_decks) one_deck))) as HP.
  assert (Hcount : forall card,
            count_occ Card_eq_dec (shuffle (concat (replicate (Z.to_nat num_decks) one_deck))) card =
            (Z.to_nat num_decks * count_occ Card_eq_dec one_deck card)%nat).
  { intros card. rewrite <- count_occ_concat_replicate.
    apply Permutation_count_occ. exact HP. }
  split; [|split; [|split]].
  - intros card Hcard. rewrite Hcount.
    apply in_one_deck in Hcard.
    rewrite (proj1 (NoDup_count_occ' Card_eq_dec one_deck)
               (proj1 (NoDup_ListNoDup one_deck) NoDup_one_deck) card Hcard). lia.
  - intros card Hcard. rewrite Hcount.
    rewrite (proj1 (count_occ_not_In Card_eq_dec one_deck card)); [lia|].
    intros Hin. apply Hcard, in_one_deck, Hin.
  - rewrite HP. apply Forall_concat, Forall_replicate, valid_one_deck.
  - rewrite (num_aces_Permutation _ _ HP), num_aces_concat_replicate.
    change (num_aces one_deck) with 4. lia.
Qed.

Lemma _create_stack_counts_witness :
  exists deck,
    _create_stack reverse 2 = Ok deck /\
    count_occ Card_eq_dec deck (mkCard "Hearts" 12) = 2%nat.
Proof.
  destruct (_create_stack_counts reverse 2 reverse_Permutation)
    as (deck & Hdeck & Hin & _).
  exists deck. split; [exact Hdeck|].
  apply (Hin (mkCard "Hearts" 12)). cbn. split; [tauto | lia].
Defined.

(** ** Printing a card *)

Lemma pretty_N_go_chars (x : N) :
  forall s : string,
    Forall numeral_char (String.list_ascii_of_string s) ->
    Forall numeral_char (String.list_ascii_of_string (pretty_N_go x s)).
Proof.
  induction (N.lt_wf_0 x) as [x _ IH]. intros s Hs.
  destruct (N.eq_0_gt_0_cases x) as [-> | Hpos].
  - rewrite pretty_N_go_0. exact Hs.
  - rewrite pretty_N_go_step by exact Hpos. apply IH.
    + apply N.div_lt; [exact Hpos | reflexivity].
    + cbn [String.list_ascii_of_string]. constructor; [|exact Hs].
      unfold pretty_N_char, numeral_char.
      repeat case_match; repeat split; discriminate.
Qed.

Lemma pretty_Z_chars (num : Z) :
  Forall numeral_char (String.list_ascii_of_string (pretty num)).
Proof.
  assert (Hpos : forall p : positive,
            Forall numeral_char (String.list_ascii_of_string (pretty (Npos p)))).
  { intros p. unfold pretty, pretty_N. destruct (decide (N.pos p = 0%N)); [discriminate|].
    apply pretty_N_go_chars. constructor. }
  destruct num as [|p|p]; unfold pretty, pretty_Z.
  - repeat constructor; discriminate.
  - apply Hpos.
  - cbn [String.append String.list_ascii_of_string]. constructor; [|apply Hpos].
    repeat split; discriminate.
Qed.

Lemma pretty_Z_not_name (num : Z) (c : ascii) (s : string) :
  ~ numeral_char c -> pretty num <> String c s.
Proof.
  intros Hc Heq. pose proof (pretty_Z_chars num) as Hall. rewrite Heq in Hall.
  cbn [String.list_ascii_of_string] in Hall. inversion Hall; subst. contradiction.
Qed.

Lemma _convert_card_num_to_str_chars (num : Z) :
  Forall (fun c => c <> " "%char) (String.list_ascii_of_string (_convert_card_num_to_str num)).
Proof.
  unfold _convert_card_num_to_str.
  repeat match goal with
         | |- context [?a =? ?b] => destruct (Z.eqb_spec a b)
         end; try (repeat constructor; discriminate).
  eapply Forall_impl; [apply pretty_Z_chars|]. intros c Hc. apply Hc.
Qed.

Lemma _convert_card_num_to_str_inj (n m : Z) :
  _convert_card_num_to_str n = _convert_card_num_to_str m -> n = m.
Proof.
  assert (HA : ~ numeral_char "A") by (intros (_ & H & _); apply H; reflexivity).
  assert (HJ : ~ numeral_char "J") by (intros (_ & _ & H & _); apply H; reflexivity).
  assert (HQ : ~ numeral_char "Q") by (intros (_ & _ & _ & H & _); apply H; reflexivity).
  assert (HK : ~ numeral_char "K") by (intros (_ & _ & _ & _ & H); apply H; reflexivity).
  unfold _convert_card_num_to_str.
  destruct (Z.eqb_spec n 1), (Z.eqb_spec n 11), (Z.eqb_spec n 12), (Z.eqb_spec n 13),
    (Z.eqb_spec m 1), (Z.eqb_spec m 11), (Z.eqb_spec m 12), (Z.eqb_spec m 13);
    try lia; try discriminate; intros Heq;
    try (exfalso; eapply pretty_Z_not_name; [|exact Heq]; assumption);
    try (exfalso; symmetry in Heq; eapply pretty_Z_not_name; [|exact Heq]; assumption).
  apply (inj pretty). exact Heq.
Qed.

(** Two texts without a space, each followed by a space, start the same
    string only if they are equal. *)
Lemma append_space_inj (a : string) :
  forall (b x y : string),
    Forall (fun c => c <> " "%char) (String.list_ascii_of_string a) ->
    Forall (fun c => c <> " "%char) (String.list_ascii_of_string b) ->
    a +:+ String " " x = b +:+ String " " y -> a = b /\ x = y.
Proof.
  induction a as [|c a IH]; intros b x y Ha Hb Heq; destruct b as [|d b];
    cbn [String.append String.list_ascii_of_string] in *.
  - injection Heq as ->. split; reflexivity.
  - injection Heq as <- _. inversion Hb; subst. contradiction.
  - injection Heq as -> _. inversion Ha; subst. contradiction.
  - injection Heq as -> Heq. inversion Ha; subst. inversion Hb; subst.
    destruct (IH b x y) as [-> ->]; try assumption. split; reflexivity.
Qed.

(** The name of a rank tells the rank, and the text of a card tells the
    card: [_convert_card_num_to_str] is injective on all integers (no numeral
    reads Ace, Jack, Queen or King), and two cards that print the same have
    the same rank and the same suit. *)
Theorem __str___inj (card card' : Card) :
  (_convert_card_num_to_str (number card) = _convert_card_num_to_str (number card') ->
   number card = number card') /\
  (__str__ card = __str__ card' -> card = card').
Proof.
  split; [apply _convert_card_num_to_str_inj|].
  unfold __str__. intros Heq.
  change (" of " +:+ suit card) with (String " " ("of " +:+ suit card)) in Heq.
  change (" of " +:+ suit card') with (String " " ("of " +:+ suit card')) in Heq.
  apply append_space_inj in Heq as [Hnum Hsuit];
    try apply _convert_card_num_to_str_chars.
  apply _convert_card_num_to_str_inj in Hnum.
  cbn in Hsuit. injection Hsuit as Hsuit.
  assert (Hnil : forall s : string, "" +:+ s = s) by reflexivity.
  rewrite !Hnil in Hsuit.
  destruct card, card'. cbn in *. subst. reflexivity.
Qed.

Lemma __str___inj_witness :
  __str__ (mkCard "Hearts" 12) = "Queen of Hearts"%string /\
  mkCard "Hearts" 12 = mkCard "Hearts" (11 + 1).
Proof.
  split; [reflexivity|].
  apply (__str___inj (mkCard "Hearts" 12) (mkCard "Hearts" (11 + 1))).
  reflexivity.
Defined.

(** ** The player's choice *)

Lemma _player_choice_skip (player_idx : Z) (junk stdin : list string) (self : Blackjack) :
  Forall (fun line => line <> "h" /\ line <> "s")%string junk ->
  _player_choice player_idx (junk ++ stdin) self = _player_choice player_idx stdin self.
Proof.
  induction 1 as [|line junk [Hh Hs] _ IH]; [reflexivity|].
  cbn [app _player_choice].
  destruct (decide (line = "h"%string)); [contradiction|].
  destruct (decide (line = "s"%string)); [contradiction|]. exact IH.
Qed.

Lemma py_getitem_Some {A} (l : list A) (idx : Z) (i : nat) (x : A) :
  py_index (length l) idx = Some i -> l !! i = Some x -> py_getitem l idx = Some x.
Proof. unfold py_getitem. intros -> H. exact H. Qed.

Lemma _player_choice_hit (player_idx : Z) (stdin : list string) (self : Blackjack)
    (rest stack : list Card) (card : Card) (i : nat) :
  _card_stack self = rest ++ [card] ->
  py_index (length (_player_stacks self)) player_idx = Some i ->
  _player_stacks self !! i = Some stack ->
  _player_choice player_idx ("h"%string :: stdin) self =
    (Returned (_calculate_stack_sum (stack ++ [card]) >? 21),
     (stdin,
      mkBlackjack (_num_decks self) (_num_players self) rest (_dealer_stack self)
        (<[i := stack ++ [card]]> (_player_stacks self))
        (_player_dones self) (_current_turn self) (stdout self))).
Proof.
  intros E Hi Hstack. cbn [_player_choice].
  destruct (decide ("h"%string = "h"%string)); [|contradiction].
  unfold io_bind at 1, lift at 1.
  rewrite (player_draw_ok _ _ rest card i E Hi).
  unfold io_bind at 1, lift at 1, get. cbn [_player_stacks].
  rewrite (alter_lookup_insert _ _ _ _ Hstack).
  pose proof (lookup_lt_Some _ _ _ Hstack) as Hlt.
  rewrite (py_getitem_Some _ player_idx i (stack ++ [card]));
    [reflexivity | rewrite length_insert; exact Hi | apply list_lookup_insert_eq; exact Hlt].
Qed.

Lemma _player_choice_hit_empty (player_idx : Z) (stdin : list string) (self : Blackjack) :
  _card_stack self = [] ->
  _player_choice player_idx ("h"%string :: stdin) self =
    (Failed (Raised IndexError), (stdin, self)).
Proof.
  intros E. cbn [_player_choice].
  destruct (decide ("h"%string = "h"%string)); [|contradiction].
  unfold io_bind at 1, lift at 1. rewrite (player_draw_empty _ _ E). reflexivity.
Qed.

(** [_player_choice] reads lines until one is [h] or [s] and ignores the
    others.  If the lines run out first it raises [EOFError] and the object
    is untouched.  On [s] it returns [True] and the object is untouched.  On
    [h] it draws the top card of the deck into the player's hand and returns
    whether the hand now evaluates above 21; on an empty deck it raises
    [IndexError].  The lines after the answer are left to be read. *)
Theorem _player_choice_answers (player_idx : Z) (junk stdin : list string) (self : Blackjack) :
  Forall (fun line => line <> "h" /\ line <> "s")%string junk ->
  _player_choice player_idx junk self = (Failed EOFError, ([], self)) /\
  _player_choice player_idx (junk ++ "s"%string :: stdin) self = (Returned true, (stdin, self)) /\
  (forall rest stack card i,
     _card_stack self = rest ++ [card] ->
     py_index (length (_player_stacks self)) player_idx = Some i ->
     _player_stacks self !! i = Some stack ->
     _player_choice player_idx (junk ++ "h"%string :: stdin) self =
       (Returned (_calculate_stack_sum (stack ++ [card]) >? 21),
        (stdin,
         mkBlackjack (_num_decks self) (_num_players self) rest (_dealer_stack self)
           (<[i := stack ++ [card]]> (_player_stacks self))
           (_player_dones self) (_current_turn self) (stdout self)))) /\
  (_card_stack self = [] ->
   _player_choice player_idx (junk ++ "h"%string :: stdin) self =
     (Failed (Raised IndexError), (stdin, self))).
Proof.
  intros Hjunk. split; [|split; [|split]].
  - rewrite <- (app_nil_r junk), (_player_choice_skip _ _ _ _ Hjunk). reflexivity.
  - rewrite (_player_choice_skip _ _ _ _ Hjunk). reflexivity.
  - intros rest stack card i E Hi Hstack.
    rewrite (_player_choice_skip _ _ _ _ Hjunk).
    apply (_player_choice_hit _ _ _ rest stack card i E Hi Hstack).
  - intros E. rewrite (_player_choice_skip _ _ _ _ Hjunk).
    apply (_player_choice_hit_empty _ _ _ E).
Qed.

Lemma _player_choice_answers_witness :
  _player_choice 0 ["x"; ""; "s"; "h"]%string
    (mkBlackjack 1 1 [mkCard "Hearts" 4] [] [[mkCard "Clubs" 9]] [false] 0 []) =
  (Returned true,
   (["h"%string],
    mkBlackjack 1 1 [mkCard "Hearts" 4] [] [[mkCard "Clubs" 9]] [false] 0 [])).
Proof.
  destruct (_player_choice_answers 0 ["x"; ""]%string ["h"%string]
              (mkBlackjack 1 1 [mkCard "Hearts" 4] [] [[mkCard "Clubs" 9]] [false] 0 []))
    as (_ & H & _).
  - repeat constructor; discriminate.
  - exact H.
Defined.

(** ** A whole game *)

Lemma io_bind_returned {A B} (m : IO A) (k : A -> IO B) stdin self a stdin' self' :
  m stdin self = (Returned a, (stdin', self')) ->
  io_bind m k stdin self = k a stdin' self'.
Proof. intros H. unfold io_bind. rewrite H. reflexivity. Qed.

Lemma io_bind_failed {A B} (m : IO A) (k : A -> IO B) stdin self e rest :
  m stdin self = (Failed e, rest) ->
  io_bind m k stdin self = (Failed e, rest).
Proof. intros H. unfold io_bind. rewrite H. reflexivity. Qed.

Lemma lift_ok {A} (m : M A) stdin self a self' :
  m self = (Ok a, self') -> lift m stdin self = (Returned a, (stdin, self')).
Proof. intros H. unfold lift. rewrite H. reflexivity. Qed.

Lemma lift_raise {A} (m : M A) stdin self e self' :
  m self = (Raise e, self') -> lift m stdin self = (Failed (Raised e), (stdin, self')).
Proof. intros H. unfold lift. rewrite H. reflexivity. Qed.

Lemma keeps_refl (self : Blackjack) : keeps self self.
Proof. repeat split; reflexivity. Qed.

Lemma keeps_trans (s1 s2 s3 : Blackjack) : keeps s1 s2 -> keeps s2 s3 -> keeps s1 s3.
Proof.
  intros (Ha & Hb & Hc & Hd & He) (Ha' & Hb' & Hc' & Hd' & He').
  split; [congruence|]. split; [congruence|]. split; [congruence|].
  split; [rewrite Hd'; exact Hd | lia].
Qed.

Lemma py_index_nat (len k : nat) : (k < len)%nat -> py_index len (Z.of_nat k) = Some k.
Proof.
  intros Hk. destruct (py_index_Some len (Z.of_nat k)) as (i & Hi & _ & Hpos); [lia|].
  destruct (Z.ltb_spec (Z.of_nat k) 0); [lia|]. rewrite Hi. f_equal. lia.
Qed.

(** An index from 0 to the length designates an element. *)
Lemma py_getitem_valid {A} (l : list A) (idx : Z) :
  0 <= idx < Z.of_nat (length l) ->
  exists i x, py_index (length l) idx = Some i /\ l !! i = Some x /\ py_getitem l idx = Some x.
Proof.
  intros Hidx. destruct (py_index_Some (length l) idx) as (i & Hi & Hlt & _); [lia|].
  destruct (lookup_lt_is_Some_2 l i Hlt) as [x Hx].
  exists i, x. split; [exact Hi|]. split; [exact Hx|]. exact (py_getitem_Some l idx i x Hi Hx).
Qed.

Lemma _player_choice_outcome (player_idx : Z) (self : Blackjack) :
  0 <= player_idx < Z.of_nat (length (_player_stacks self)) ->
  forall stdin, exists r stdin' self',
    _player_choice player_idx stdin self = (r, (stdin', self')) /\
    keeps self self' /\
    _player_dones self' = _player_dones self /\
    _current_turn self' = _current_turn self /\
    ((exists b, r = Returned b /\ (length stdin' < length stdin)%nat) \/ ran_out r stdin' self').
Proof.
  intros Hidx stdin. induction stdin as [|line stdin IH].
  - exists (Failed EOFError), [], self. split; [reflexivity|].
    split; [apply keeps_refl|]. split; [reflexivity|]. split; [reflexivity|].
    right. left. split; reflexivity.
  - destruct (decide (line = "h"%string)) as [->|Hh].
    + destruct (list_snoc_cases (_card_stack self)) as [E | (rest & card & E)].
      * rewrite (_player_choice_hit_empty _ _ _ E).
        eexists _, _, _. split; [reflexivity|].
        split; [apply keeps_refl|]. split; [reflexivity|]. split; [reflexivity|].
        right. right. split; [reflexivity | exact E].
      * destruct (py_getitem_valid (_player_stacks self) player_idx Hidx)
          as (i & stack & Hi & Hstack & _).
        rewrite (_player_choice_hit _ _ _ rest stack card i E Hi Hstack).
        eexists _, _, _. split; [reflexivity|].
        assert (Hdraw : snd (player_draw player_idx self) =
                  mkBlackjack (_num_decks self) (_num_players self) rest (_dealer_stack self)
                    (<[i := stack ++ [card]]> (_player_stacks self))
                    (_player_dones self) (_current_turn self) (stdout self)).
        { rewrite (player_draw_ok _ _ rest card i E Hi), (alter_lookup_insert _ _ _ _ Hstack).
          reflexivity. }
        rewrite <- Hdraw. split; [|split; [|split]].
        -- split; [apply player_draw_shape|]. rewrite Hdraw. cbn.
           split; [reflexivity|]. split; [reflexivity|]. split.
           ++ change (Permutation (all_cards (mkBlackjack (_num_decks self) (_num_players self)
                        rest (_dealer_stack self) (<[i := stack ++ [card]]> (_player_stacks self))
                        (_player_dones self) (_current_turn self) (stdout self)))
                        (all_cards self)).
              rewrite <- Hdraw. apply player_draw_cards. lia.
           ++ rewrite E, length_app. lia.
        -- rewrite Hdraw. reflexivity.
        -- rewrite Hdraw. reflexivity.
        -- left. eexists. split; [reflexivity|]. cbn [length]. lia.
    + cbn [_player_choice]. destruct (decide (line = "h"%string)); [contradiction|].
      destruct (decide (line = "s"%string)) as [->|Hs].
      * eexists _, _, _. split; [reflexivity|].
        split; [apply keeps_refl|]. split; [reflexivity|]. split; [reflexivity|].
        left. eexists. split; [reflexivity|]. cbn [length]. lia.
      * destruct IH as (r & stdin' & self' & Hrun & Hkeeps & Hdones & Hturn & Hend).
        exists r, stdin', self'. split; [exact Hrun|].
        split; [exact Hkeeps|]. split; [exact Hdones|]. split; [exact Hturn|].
        destruct Hend as [(b & -> & Hlen) | Hout]; [left | right; exact Hout].
        exists b. split; [reflexivity|]. cbn [length]. lia.
Qed.

Lemma print_player_stack_valid (player_idx : Z) (self : Blackjack) :
  0 <= player_idx < Z.of_nat (length (_player_stacks self)) ->
  print_player_stack player_idx self = (Ok tt, self).
Proof.
  intros Hidx. destruct (py_getitem_valid _ _ Hidx) as (i & stack & _ & _ & Hget).
  unfold print_player_stack. rewrite Hget. reflexivity.
Qed.

Lemma player_turn_outcome (player_idx : Z) (stdin : list string) (self : Blackjack) :
  0 <= player_idx < Z.of_nat (length (_player_stacks self)) ->
  length (_player_dones self) = length (_player_stacks self) ->
  exists r stdin' self',
    player_turn player_idx stdin self = (r, (stdin', self')) /\
    keeps self self' /\
    ((r = Returned tt /\
      (py_getitem (_player_dones self) player_idx = Some true ->
       stdin' = stdin /\ self' = self) /\
      (py_getitem (_player_dones self) player_idx = Some false ->
       (length stdin' < length stdin)%nat)) \/
     ran_out r stdin' self').
Proof.
  intros Hidx Hlen.
  destruct (py_getitem_valid (_player_dones self) player_idx) as (i & d & Hi & Hd & Hget);
    [rewrite Hlen; exact Hidx|].
  unfold player_turn.
  rewrite (io_bind_returned _ _ stdin self d stdin self)
    by (apply lift_ok; unfold get_player_done; rewrite Hget; reflexivity).
  destruct d.
  - exists (Returned tt), stdin, self. split; [reflexivity|]. split; [apply keeps_refl|].
    left. split; [reflexivity|]. split; [intros _; split; reflexivity|].
    rewrite Hget. intros [=].
  - rewrite (io_bind_returned _ _ stdin self self stdin self) by reflexivity.
    assert (Hfirst : (if _current_turn self <? 1
                      then lift (print_player_stack player_idx) else io_ret tt) stdin self =
                     (Returned tt, (stdin, self))).
    { destruct (_current_turn self <? 1); [|reflexivity].
      apply lift_ok, print_player_stack_valid, Hidx. }
    rewrite (io_bind_returned _ _ stdin self tt stdin self Hfirst).
    destruct (_player_choice_outcome player_idx self Hidx stdin)
      as (r & stdin' & self' & Hrun & Hkeeps & Hdones & Hturn & Hend).
    destruct Hend as [(b & -> & Hshorter) | Hout].
    + rewrite (io_bind_returned _ _ stdin self b stdin' self' Hrun).
      assert (Hset : set_player_done player_idx b self' =
                (Ok tt, set_player_dones (<[i := b]> (_player_dones self')) self')).
      { unfold set_player_done. rewrite Hdones, Hi. reflexivity. }
      rewrite (io_bind_returned _ _ stdin' self' tt stdin' _ (lift_ok _ _ _ _ _ Hset)).
      destruct Hkeeps as (Hshape & Hdl & Hdealer & Hcards & Hdeck).
      assert (Hidx' : 0 <= player_idx <
                Z.of_nat (length (_player_stacks
                  (set_player_dones (<[i := b]> (_player_dones self')) self')))).
      { cbn [set_player_dones _player_stacks].
        unfold shape in Hshape. injection Hshape as _ Hstacks. rewrite Hstacks. exact Hidx. }
      rewrite (lift_ok _ stdin' _ tt _ (print_player_stack_valid player_idx _ Hidx')).
      eexists _, _, _. split; [reflexivity|]. split.
      * split; [exact Hshape|]. cbn. rewrite length_insert.
        split; [exact Hdl|]. split; [exact Hdealer|]. split; [exact Hcards | exact Hdeck].
      * left. split; [reflexivity|]. split; [rewrite Hget; intros [=]|].
        intros _. exact Hshorter.
    + assert (Hfail : exists e, r = Failed e).
      { destruct Hout as [[-> _] | [-> _]]; eexists; reflexivity. }
      destruct Hfail as [e ->].
      rewrite (io_bind_failed _ _ stdin self e _ Hrun).
      exists (Failed e), stdin', self'. split; [reflexivity|]. split; [exact Hkeeps|].
      right. destruct Hout as [[[= ->] ->] | [[= ->] Hdeck]].
      * left. split; reflexivity.
      * right. split; [reflexivity | exact Hdeck].
Qed.

(** The [for] loop over the players: it reads at least one answer if some
    player it visits is not done. *)
Lemma io_for_outcome (idxs : list Z) :
  forall (stdin : list string) (self : Blackjack),
    (forall idx, In idx idxs -> 0 <= idx < Z.of_nat (length (_player_stacks self))) ->
    length (_player_dones self) = length (_player_stacks self) ->
    exists r stdin' self',
      io_for idxs player_turn stdin self = (r, (stdin', self')) /\
      keeps self self' /\
      ((r = Returned tt /\
        (length stdin' <= length stdin)%nat /\
        ((exists idx, In idx idxs /\ py_getitem (_player_dones self) idx = Some false) ->
         (length stdin' < length stdin)%nat)) \/
       ran_out r stdin' self').
Proof.
  induction idxs as [|idx idxs IH]; intros stdin self Hvalid Hlen.
  - exists (Returned tt), stdin, self. split; [reflexivity|]. split; [apply keeps_refl|].
    left. split; [reflexivity|]. split; [lia|]. intros (idx & [] & _).
  - cbn [io_for].
    destruct (player_turn_outcome idx stdin self (Hvalid idx (or_introl eq_refl)) Hlen)
      as (r1 & stdin1 & self1 & Hrun1 & Hkeeps1 & Hend1).
    destruct Hend1 as [(-> & Hdone & Hopen) | Hout].
    + rewrite (io_bind_returned _ _ stdin self tt stdin1 self1 Hrun1).
      pose proof Hkeeps1 as (Hshape & Hdl & _).
      assert (Hstacks : length (_player_stacks self1) = length (_player_stacks self)).
      { unfold shape in Hshape. injection Hshape as _ H. exact H. }
      destruct (IH stdin1 self1) as (r & stdin' & self' & Hrun & Hkeeps & Hend).
      { intros idx' Hin. rewrite Hstacks. apply Hvalid. right. exact Hin. }
      { congruence. }
      exists r, stdin', self'. split; [exact Hrun|].
      split; [exact (keeps_trans _ _ _ Hkeeps1 Hkeeps)|].
      destruct Hend as [(-> & Hle & Hstrict) | Hout]; [left | right; exact Hout].
      split; [reflexivity|].
      destruct (py_getitem_valid (_player_dones self) idx) as (i & d & _ & _ & Hget).
      { rewrite Hlen. apply Hvalid. left. reflexivity. }
      destruct d.
      * destruct (Hdone Hget) as [-> ->]. split; [exact Hle|].
        intros (idx' & [<- | Hin] & Hfalse); [congruence|].
        apply Hstrict. exists idx'. split; [exact Hin | exact Hfalse].
      * specialize (Hopen Hget). split; [lia|]. intros _. lia.
    + assert (Hfail : exists e, r1 = Failed e).
      { destruct Hout as [[-> _] | [-> _]]; eexists; reflexivity. }
      destruct Hfail as [e ->].
      rewrite (io_bind_failed _ _ stdin self e _ Hrun1).
      exists (Failed e), stdin1, self1. split; [reflexivity|]. split; [exact Hkeeps1|].
      right. destruct Hout as [[[= ->] ->] | [[= ->] Hdeck]].
      * left. split; reflexivity.
      * right. split; [reflexivity | exact Hdeck].
Qed.

Lemma forallb_false_lookup (l : list bool) :
  forallb id l = false -> exists k, l !! k = Some false.
Proof.
  induction l as [|b l IH]; cbn [forallb]; [discriminate|].
  destruct b; cbn [id andb].
  - intros H. destruct (IH H) as [k Hk]. exists (S k). exact Hk.
  - intros _. exists 0%nat. reflexivity.
Qed.

Lemma game_inv_keeps (self self' : Blackjack) : keeps self self' -> game_inv self -> game_inv self'.
Proof.
  intros (Hshape & Hdl & _) [Hwf Hlen]. split.
  - exact (well_formed_shape _ _ Hshape Hwf).
  - unfold shape in Hshape. injection Hshape as _ Hstacks. congruence.
Qed.

(** The loop over the turns ends once the answers are read: one round more
    than there are answers is never needed. *)
Lemma players_loop_outcome (fuel : nat) :
  forall (stdin : list string) (self : Blackjack),
    game_inv self ->
    (length stdin < fuel)%nat ->
    exists r stdin' self',
      players_loop fuel stdin self = (r, (stdin', self')) /\
      keeps self self' /\
      ((r = Returned (Some tt) /\ forallb id (_player_dones self') = true) \/
       ran_out r stdin' self').
Proof.
  induction fuel as [|fuel IH]; intros stdin self Hinv Hfuel; [lia|].
  cbn [players_loop].
  rewrite (io_bind_returned _ _ stdin self self stdin self) by reflexivity.
  destruct (forallb id (_player_dones self)) eqn:Hall.
  - exists (Returned (Some tt)), stdin, self. split; [reflexivity|].
    split; [apply keeps_refl|]. left. split; [reflexivity | exact Hall].
  - destruct Hinv as [Hwf Hlen].
    assert (Hvalid : forall idx, In idx (range (_num_players self)) ->
              0 <= idx < Z.of_nat (length (_player_stacks self))).
    { intros idx Hin. apply in_range in Hin. unfold well_formed in Hwf. lia. }
    destruct (io_for_outcome (range (_num_players self)) stdin self Hvalid Hlen)
      as (r1 & stdin1 & self1 & Hrun1 & Hkeeps1 & Hend1).
    destruct Hend1 as [(-> & _ & Hstrict) | Hout].
    + rewrite (io_bind_returned _ _ stdin self tt stdin1 self1 Hrun1).
      match goal with
      | |- context [lift (modify ?f)] =>
          rewrite (io_bind_returned _ _ stdin1 self1 tt stdin1 (f self1))
            by reflexivity
      end.
      set (self2 := set_current_turn (_current_turn self1 + 1) self1).
      assert (Hkeeps2 : keeps self self2).
      { apply (keeps_trans _ self1); [exact Hkeeps1|]. repeat split; reflexivity. }
      destruct (forallb_false_lookup _ Hall) as [k Hk].
      pose proof (lookup_lt_Some _ _ _ Hk) as Hklt.
      assert (Hshorter : (length stdin1 < length stdin)%nat).
      { apply Hstrict. exists (Z.of_nat k). split.
        - apply in_range. unfold well_formed in Hwf. lia.
        - apply (py_getitem_Some _ _ k); [apply py_index_nat; exact Hklt | exact Hk]. }
      destruct (IH stdin1 self2) as (r & stdin' & self' & Hrun & Hkeeps & Hend).
      { apply (game_inv_keeps self); [exact Hkeeps2 | split; assumption]. }
      { lia. }
      exists r, stdin', self'. split; [exact Hrun|].
      split; [exact (keeps_trans _ _ _ Hkeeps2 Hkeeps) | exact Hend].
    + assert (Hfail : exists e, r1 = Failed e).
      { destruct Hout as [[-> _] | [-> _]]; eexists; reflexivity. }
      destruct Hfail as [e ->].
      rewrite (io_bind_failed _ _ stdin self e _ Hrun1).
      exists (Failed e), stdin1, self1. split; [reflexivity|]. split; [exact Hkeeps1|].
      right. destruct Hout as [[[= ->] ->] | [[= ->] Hdeck]].
      * left. split; reflexivity.
      * right. split; [reflexivity | exact Hdeck].
Qed.

Lemma evaluate_two_cards (d1 d2 : Card) : _calculate_stack_sum [d1; d2] <= 21.
Proof.
  change (evaluate [d1; d2] <= 21). rewrite evaluate_closed.
  pose proof (length_hand_split [d1; d2]) as Hsplit. cbn [length] in Hsplit.
  unfold closed_form, non_ace_sum.
  pose proof (sum_clip_bounds (non_ace_numbers [d1; d2])).
  pose proof (num_aces_nonneg [d1; d2]).
  destruct (Z.leb_spec 1 (num_aces [d1; d2])),
    (Z.leb_spec (_calculate_no_aces (non_ace_numbers [d1; d2])) 10); cbn [andb]; lia.
Qed.

Lemma dealer_moves_cards (self self' : Blackjack) (drawn : list Card) :
  _card_stack self = _card_stack self' ++ reverse drawn ->
  _dealer_stack self' = _dealer_stack self ++ drawn ->
  _player_stacks self' = _player_stacks self ->
  Permutation (all_cards self') (all_cards self).
Proof.
  intros Hdeck Hdealer Hplayers. unfold all_cards.
  rewrite Hdeck, Hdealer, Hplayers, <- !app_assoc.
  apply Permutation_app_head.
  rewrite (reverse_Permutation drawn).
  rewrite !app_assoc. apply Permutation_app_tail, Permutation_app_comm.
Qed.

Lemma forallb_id_Forall (l : list bool) :
  forallb id l = true -> Forall (fun done => done = true) l.
Proof.
  induction l as [|b l IH]; cbn [forallb]; [constructor|].
  intros H. apply andb_true_iff in H as [Hb Hl]. constructor; [exact Hb | apply IH, Hl].
Qed.

(** A game played by [run] on an object without dealt cards ends: on any
    finite list of answers, more rounds than there are answers and cards are
    never needed.  It keeps the cards of the game.  It ends normally with
    every player done and the dealer between 17 and 26, or with [EOFError]
    once every answer is read, or with [IndexError] once the deck is
    empty. *)
Theorem run_ends (fuel : nat) (stdin : list string) (self : Blackjack) :
  game_inv self ->
  _dealer_stack self = [] ->
  (length stdin < fuel)%nat ->
  (length (_card_stack self) < fuel)%nat ->
  exists r stdin' self',
    run fuel stdin self = (r, (stdin', self')) /\
    Permutation (all_cards self') (all_cards self) /\
    ((r = Returned (Some tt) /\
      Forall (fun done => done = true) (_player_dones self') /\
      17 <= _calculate_stack_sum (_dealer_stack self') <= 26) \/
     ran_out r stdin' self').
Proof.
  intros [Hwf Hlen] Hdealer Hanswers Hcards. unfold run.
  destruct (initial_deal_cards self Hwf) as [Hshape1 Hperm1].
  destruct (Nat.lt_ge_cases (length (_card_stack self)) (2 + 2 * length (_player_stacks self)))
    as [Hshort | Henough].
  - destruct (initial_deal_outcome self Hwf Hdealer) as [_ Hfail].
    destruct (Hfail Hshort) as (self1 & Hdeal & Hempty).
    rewrite Hdeal in Hperm1. cbn [snd] in Hperm1.
    rewrite (io_bind_failed _ _ stdin self _ _ (lift_raise _ stdin _ _ _ Hdeal)).
    eexists _, _, _. split; [reflexivity|]. split; [exact Hperm1|].
    right. right. split; [reflexivity | exact Hempty].
  - destruct (deck_top_split _ _ Henough) as (rest & d1 & d2 & hands & Hhands & Hdeck & Hrest).
    pose proof (initial_deal_deals self rest d1 d2 hands Hwf Hdealer Hhands Hdeck) as Hdeal.
    rewrite Hdeal in Hshape1, Hperm1. cbn [snd] in Hshape1, Hperm1.
    rewrite (io_bind_returned _ _ stdin self tt stdin _ (lift_ok _ stdin _ _ _ Hdeal)).
    match type of Hdeal with _ = (_, ?s1) => set (self1 := s1) in * end.
    rewrite (io_bind_returned _ _ stdin self1 tt stdin self1) by reflexivity.
    assert (Hinv1 : game_inv self1).
    { split; [exact (well_formed_shape _ _ Hshape1 Hwf)|].
      pose proof (f_equal snd Hshape1) as Hstacks. cbn [shape snd] in Hstacks.
      rewrite Hstacks. exact Hlen. }
    destruct (players_loop_outcome fuel stdin self1 Hinv1 Hanswers)
      as (r2 & stdin2 & self2 & Hrun2 & (Hshape2 & Hdl2 & Hdealer2 & Hperm2 & Hdeck2) & Hend2).
    assert (Hperm12 : Permutation (all_cards self2) (all_cards self))
      by (rewrite Hperm2; exact Hperm1).
    destruct Hend2 as [(-> & Hall) | Hout].
    + rewrite (io_bind_returned _ _ stdin self1 (Some tt) stdin2 self2 Hrun2).
      destruct (dealer_loop_run fuel self2)
        as (drawn & self3 & r3 & Hrun3 & Hdeck3 & Hdealer3 & Hp3 & Hd3 & _ & Hend3).
      { subst self1. cbn [_card_stack] in Hdeck2. lia. }
      pose proof (dealer_moves_cards self2 self3 drawn Hdeck3 Hdealer3 Hp3) as Hperm3.
      destruct Hend3 as [(-> & H17 & Hcap) | (-> & Hempty & _)].
      * rewrite (io_bind_returned _ _ stdin2 self2 (Some tt) stdin2 self3
                   (lift_ok _ stdin2 _ _ _ Hrun3)).
        rewrite (io_bind_returned _ _ stdin2 self3 tt stdin2 self3) by reflexivity.
        eexists _, _, _. split; [reflexivity|].
        split; [rewrite Hperm3; exact Hperm12|]. left. split; [reflexivity|].
        split; [rewrite Hd3; apply forallb_id_Forall, Hall|].
        split; [exact H17|].
        destruct Hcap as [-> | Hcap]; [|exact Hcap].
        rewrite Hdealer3, app_nil_r, Hdealer2. subst self1. cbn [_dealer_stack].
        pose proof (evaluate_two_cards d1 d2). lia.
      * rewrite (io_bind_failed _ _ stdin2 self2 _ _ (lift_raise _ stdin2 _ _ _ Hrun3)).
        eexists _, _, _. split; [reflexivity|].
        split; [rewrite Hperm3; exact Hperm12|].
        right. right. split; [reflexivity | exact Hempty].
    + assert (Hfail : exists e, r2 = Failed e).
      { destruct Hout as [[-> _] | [-> _]]; eexists; reflexivity. }
      destruct Hfail as [e ->].
      rewrite (io_bind_failed _ _ stdin self1 e _ Hrun2).
      exists (Failed e), stdin2, self2. split; [reflexivity|]. split; [exact Hperm12|].
      right. destruct Hout as [[[= ->] ->] | [[= ->] Hgone]].
      * left. split; reflexivity.
      * right. split; [reflexivity | exact Hgone].
Qed.

Lemma run_ends_witness :
  exists r stdin' self',
    run 8 ["x"; "s"]%string
      (mkBlackjack 1 1
         [mkCard "Hearts" 2; mkCard "Clubs" 4; mkCard "Clubs" 9; mkCard "Spades" 9;
          mkCard "Hearts" 6; mkCard "Diamonds" 10] [] [[]] [false] 0 []) =
      (r, (stdin', self')) /\
    ((r = Returned (Some tt) /\
      Forall (fun done => done = true) (_player_dones self') /\
      17 <= _calculate_stack_sum (_dealer_stack self') <= 26) \/
     ran_out r stdin' self').
Proof.
  destruct (run_ends 8 ["x"; "s"]%string
              (mkBlackjack 1 1
                 [mkCard "Hearts" 2; mkCard "Clubs" 4; mkCard "Clubs" 9; mkCard "Spades" 9;
                  mkCard "Hearts" 6; mkCard "Diamonds" 10] [] [[]] [false] 0 []))
    as (r & stdin' & self' & Hrun & _ & Hend).
  - split; reflexivity.
  - reflexivity.
  - cbn. lia.
  - cbn. lia.
  - exists r, stdin', self'. split; [exact Hrun | exact Hend].
Defined.

(** One turn of [run] for a player: a player marked done is skipped, no
    answer is read and the object is untouched; a player not done who
    answers [s] (after any other lines) is marked done, with the hand as it
    was; one who answers [h] gets the top card of the deck and is marked done
    exactly when the hand then evaluates above 21. *)
Theorem player_turn_answers (player_idx : Z) (junk stdin : list string) (self : Blackjack)
    (i : nat) :
  0 <= player_idx < Z.of_nat (length (_player_stacks self)) ->
  length (_player_dones self) = length (_player_stacks self) ->
  py_index (length (_player_stacks self)) player_idx = Some i ->
  Forall (fun line => line <> "h" /\ line <> "s")%string junk ->
  (_player_dones self !! i = Some true ->
   player_turn player_idx stdin self = (Returned tt, (stdin, self))) /\
  (_player_dones self !! i = Some false ->
   player_turn player_idx (junk ++ "s"%string :: stdin) self =
     (Returned tt, (stdin, set_player_dones (<[i := true]> (_player_dones self)) self))) /\
  (_player_dones self !! i = Some false ->
   forall rest stack card,
     _card_stack self = rest ++ [card] ->
     _player_stacks self !! i = Some stack ->
     player_turn player_idx (junk ++ "h"%string :: stdin) self =
       (Returned tt,
        (stdin,
         mkBlackjack (_num_decks self) (_num_players self) rest (_dealer_stack self)
           (<[i := stack ++ [card]]> (_player_stacks self))
           (<[i := _calculate_stack_sum (stack ++ [card]) >? 21]> (_player_dones self))
           (_current_turn self) (stdout self)))).
Proof.
  intros Hidx Hlen Hi Hjunk.
  assert (Hi' : py_index (length (_player_dones self)) player_idx = Some i)
    by (rewrite Hlen; exact Hi).
  assert (Hopen : forall d, _player_dones self !! i = Some d ->
            forall stdin0, lift (get_player_done player_idx) stdin0 self =
                           (Returned d, (stdin0, self))).
  { intros d Hd stdin0. apply lift_ok. unfold get_player_done.
    rewrite (py_getitem_Some _ _ i d Hi' Hd). reflexivity. }
  assert (Hprint : forall stdin0, (if _current_turn self <? 1
                    then lift (print_player_stack player_idx) else io_ret tt) stdin0 self =
                   (Returned tt, (stdin0, self))).
  { intros stdin0. destruct (_current_turn self <? 1); [|reflexivity].
    apply lift_ok, print_player_stack_valid, Hidx. }
  split; [|split].
  - intros Hd. unfold player_turn.
    rewrite (io_bind_returned _ _ stdin self true stdin self (Hopen true Hd stdin)).
    reflexivity.
  - intros Hd. unfold player_turn.
    rewrite (io_bind_returned _ _ _ self false _ self (Hopen false Hd _)).
    rewrite (io_bind_returned _ _ _ self self _ self) by reflexivity.
    rewrite (io_bind_returned _ _ _ self tt _ self (Hprint _)).
    rewrite (io_bind_returned _ _ _ self true stdin self).
    2:{ rewrite (_player_choice_skip _ _ _ _ Hjunk). reflexivity. }
    rewrite (io_bind_returned _ _ stdin self tt stdin
               (set_player_dones (<[i := true]> (_player_dones self)) self)).
    2:{ apply lift_ok. unfold set_player_done. rewrite Hi'. reflexivity. }
    apply lift_ok, print_player_stack_valid. exact Hidx.
  - intros Hd rest stack card E Hstack. unfold player_turn.
    rewrite (io_bind_returned _ _ _ self false _ self (Hopen false Hd _)).
    rewrite (io_bind_returned _ _ _ self self _ self) by reflexivity.
    rewrite (io_bind_returned _ _ _ self tt _ self (Hprint _)).
    rewrite (io_bind_returned _ _ _ self _ stdin _
               (eq_trans (_player_choice_skip _ _ _ _ Hjunk)
                  (_player_choice_hit _ _ _ rest stack card i E Hi Hstack))).
    match goal with
    | |- context [lift (set_player_done player_idx ?b)] =>
        rewrite (io_bind_returned _ _ stdin _ tt stdin
                   (mkBlackjack (_num_decks self) (_num_players self) rest (_dealer_stack self)
                      (<[i := stack ++ [card]]> (_player_stacks self))
                      (<[i := b]> (_player_dones self))
                      (_current_turn self) (stdout self)))
    end.
    2:{ apply lift_ok. unfold set_player_done. cbn [_player_dones]. rewrite Hi'. reflexivity. }
    apply lift_ok, print_player_stack_valid. cbn [_player_stacks].
    rewrite length_insert. exact Hidx.
Qed.

Lemma player_turn_answers_witness :
  player_turn 0 ["?"; "h"; "s"]%string
    (mkBlackjack 1 1 [mkCard "Hearts" 4; mkCard "Clubs" 13] []
       [[mkCard "Clubs" 9; mkCard "Spades" 5]] [false] 0 []) =
  (Returned tt,
   (["s"%string],
    mkBlackjack 1 1 [mkCard "Hearts" 4] []
      [[mkCard "Clubs" 9; mkCard "Spades" 5; mkCard "Clubs" 13]] [true] 0 [])).
Proof.
  destruct (player_turn_answers 0 ["?"%string] ["s"%string]
              (mkBlackjack 1 1 [mkCard "Hearts" 4; mkCard "Clubs" 13] []
                 [[mkCard "Clubs" 9; mkCard "Spades" 5]] [false] 0 []) 0%nat)
    as (_ & _ & H).
  - cbn. lia.
  - reflexivity.
  - reflexivity.
  - repeat constructor; discriminate.
  - apply (H eq_refl [mkCard "Hearts" 4] [mkCard "Clubs" 9; mkCard "Spades" 5]
             (mkCard "Clubs" 13)); reflexivity.
Defined.
